(** * Shallow embedding of scripts/analyze-stl.py

    Python floats are modelled as exact real numbers (Stdlib [R]); the
    comparisons of the script become decisions on [R].  Bytes are
    [list Byte.byte]; text lines are [string].  Exceptions raised by the
    script are values of [exn], threaded through the error monad [res]. *)

From Stdlib Require Import Reals Lra Lia ZArith String Ascii List Bool Sorted.
From stdpp Require Import base gmap list.
Import ListNotations.

Open Scope R_scope.

(* ------------------------------------------------------------------ *)
(** ** Error monad: Python exceptions *)

Inductive exn :=
| StructError          (** struct.error: buffer of the wrong size *)
| ValueError           (** float() on a malformed literal *)
| IndexError           (** parts[i] out of range *)
| UnicodeDecodeError.  (** open(..., "r") on undecodable bytes *)

Definition res (A : Type) : Type := exn + A.
Definition ret {A} (a : A) : res A := inr a.
Definition raise {A} (e : exn) : res A := inl e.
Definition bind {A B} (m : res A) (k : A -> res B) : res B :=
  match m with inl e => inl e | inr a => k a end.

Notation "'let*' x := m 'in' k" := (bind m (fun x => k))
  (at level 200, x name, m at level 100, k at level 200).

(* ------------------------------------------------------------------ *)
(** ** Real-number helpers *)

(** [a < b] on floats, as a boolean. *)
Definition rlt (a b : R) : bool := if Rlt_dec a b then true else false.

(** Python's [min] / [max] of a non-empty list of floats (the empty list
    raises in Python; every call site below is guarded). *)
Definition min_list (l : list R) : R :=
  match l with [] => 0 | x :: t => fold_left Rmin t x end.
Definition max_list (l : list R) : R :=
  match l with [] => 0 | x :: t => fold_left Rmax t x end.

(** [sum] of a list of floats. *)
Definition sum_list (l : list R) : R := fold_right Rplus 0 l.

(** Python's [int(r)] on a float: truncation toward zero. *)
Definition py_int (r : R) : Z :=
  if Rle_dec 0 r then Int_part r else (- Int_part (- r))%Z.

(* ------------------------------------------------------------------ *)
(** ** Data model *)

Record point := mkPoint { px : R; py : R; pz : R }.

(** A triangle is [(normal, v1, v2, v3)]. *)
Record tri := mkTri { normal : point; v1 : point; v2 : point; v3 : point }.

(* ------------------------------------------------------------------ *)
(** ** is_ascii_stl *)

Definition bytes_of (s : string) : list Byte.byte := list_byte_of_string s.

(** The ASCII whitespace stripped by [bytes.lstrip()]:
    space, \t, \n, \x0b, \x0c, \r. *)
Definition byte_is_space (b : Byte.byte) : bool :=
  let n := Byte.to_nat b in
  (Nat.eqb n 32 || ((9 <=? n) && (n <=? 13))%nat).

Fixpoint lstrip (bs : list Byte.byte) : list Byte.byte :=
  match bs with
  | [] => []
  | b :: t => if byte_is_space b then lstrip t else bs
  end.

Fixpoint starts_with (pre bs : list Byte.byte) : bool :=
  match pre, bs with
  | [], _ => true
  | p :: pre', b :: bs' => Byte.eqb p b && starts_with pre' bs'
  | _ :: _, [] => false
  end.

Definition null_byte : Byte.byte := Byte.x00.

(** [start = f.read(80).lstrip()];
    [start.startswith(b"solid") and b"\x00" not in start]. *)
Definition is_ascii_stl (file : list Byte.byte) : bool :=
  let start := lstrip (firstn 80 file) in
  starts_with (bytes_of "solid") start &&
  negb (existsb (Byte.eqb null_byte) start).

(* ------------------------------------------------------------------ *)
(** ** read_binary_stl *)

(** Little-endian unsigned integer of a byte string. *)
Fixpoint le_uint (bs : list Byte.byte) : Z :=
  match bs with
  | [] => 0%Z
  | b :: t => (Z.of_nat (Byte.to_nat b) + 256 * le_uint t)%Z
  end.

(** The real value of an IEEE-754 binary32 bit pattern (sign, 8-bit
    exponent, 23-bit fraction).  Exponent 255 (infinities and NaNs) has no
    real counterpart; it is decoded by the normal-number formula. *)
Definition f32_to_R (w : Z) : R :=
  let e := Z.land (Z.shiftr w 23) 255 in
  let m := Z.land w (2 ^ 23 - 1) in
  let mag :=
    if (e =? 0)%Z then IZR m * powerRZ 2 (-149)
    else IZR (m + 2 ^ 23) * powerRZ 2 (e - 150) in
  if Z.testbit w 31 then - mag else mag.

(** [struct.unpack("<12fH", data)] on exactly 50 bytes: 12 floats, the
    trailing unsigned short is dropped. *)
Definition f32_at (data : list Byte.byte) (i : nat) : R :=
  f32_to_R (le_uint (firstn 4 (skipn (4 * i) data))).

Definition point_at (data : list Byte.byte) (i : nat) : point :=
  mkPoint (f32_at data (3 * i)) (f32_at data (3 * i + 1)) (f32_at data (3 * i + 2)).

Definition parse_record (data : list Byte.byte) : tri :=
  mkTri (point_at data 0) (point_at data 1) (point_at data 2) (point_at data 3).

(** [for _ in range(num_tri): data = f.read(50); if len(data) < 50: break; ...] *)
Fixpoint read_records (n : nat) (body : list Byte.byte) : list tri :=
  match n with
  | O => []
  | S n' =>
      let data := firstn 50 body in
      if (length data <? 50)%nat then []
      else parse_record data :: read_records n' (skipn 50 body)
  end.

(** [header = f.read(80)]; [num_tri = struct.unpack("<I", f.read(4))[0]]
    raises [struct.error] when fewer than 4 bytes are left. *)
Definition read_binary_stl (file : list Byte.byte)
  : res (list Byte.byte * list tri) :=
  let header := firstn 80 file in
  let cnt := firstn 4 (skipn 80 file) in
  if (length cnt <? 4)%nat then raise StructError
  else ret (header, read_records (Z.to_nat (le_uint cnt)) (skipn 84 file)).

(* ------------------------------------------------------------------ *)
(** ** read_ascii_stl *)

(** [open(filepath, "r")] decodes the file as UTF-8; the model accepts the
    7-bit ASCII subset and reports any other byte as a decode error (valid
    multi-byte UTF-8 sequences are not modelled). *)
Definition decode_text (file : list Byte.byte) : res (list ascii) :=
  if forallb (fun b => (Byte.to_nat b <? 128)%nat) file
  then ret (map ascii_of_byte file) else raise UnicodeDecodeError.

Definition nl : ascii := Ascii.ascii_of_nat 10.
Definition cr : ascii := Ascii.ascii_of_nat 13.

(** [f.readlines()] in universal-newline mode: lines end at \n, \r\n or \r,
    each translated to a single \n that the line keeps. *)
Fixpoint readlines_aux (l : list ascii) (cur : list ascii) : list (list ascii) :=
  match l with
  | [] => match cur with [] => [] | _ => [rev cur] end
  | c :: t =>
      if Ascii.eqb c nl then rev (nl :: cur) :: readlines_aux t []
      else if Ascii.eqb c cr then
        match t with
        | d :: t' =>
            if Ascii.eqb d nl then rev (nl :: cur) :: readlines_aux t' []
            else rev (nl :: cur) :: readlines_aux t []
        | [] => [rev (nl :: cur)]
        end
      else readlines_aux t (c :: cur)
  end.

Definition readlines (text : list ascii) : list string :=
  map string_of_list_ascii (readlines_aux text []).

(** [str.isspace] on ASCII: \t \n \x0b \x0c \r, \x1c..\x1f and space. *)
Definition char_is_space (c : ascii) : bool :=
  let n := nat_of_ascii c in
  ((9 <=? n) && (n <=? 13) || (28 <=? n) && (n <=? 32))%nat.

Fixpoint drop_space (l : list ascii) : list ascii :=
  match l with
  | [] => []
  | c :: t => if char_is_space c then drop_space t else l
  end.

(** [str.strip()] *)
Definition strip (s : string) : string :=
  string_of_list_ascii (rev (drop_space (rev (drop_space (list_ascii_of_string s))))).

(** [str.split()]: maximal runs of non-whitespace. *)
Fixpoint split_aux (l : list ascii) (cur : list ascii) : list (list ascii) :=
  match l with
  | [] => match cur with [] => [] | _ => [rev cur] end
  | c :: t =>
      if char_is_space c then
        match cur with [] => split_aux t [] | _ => rev cur :: split_aux t [] end
      else split_aux t (c :: cur)
  end.

Definition split (s : string) : list string :=
  map string_of_list_ascii (split_aux (list_ascii_of_string s) []).

Definition is_digit (c : ascii) : bool :=
  ((48 <=? nat_of_ascii c) && (nat_of_ascii c <=? 57))%nat.

Fixpoint take_digits (l : list ascii) : list Z * list ascii :=
  match l with
  | c :: t =>
      if is_digit c then
        let '(ds, r) := take_digits t in ((Z.of_nat (nat_of_ascii c) - 48)%Z :: ds, r)
      else ([], l)
  | [] => ([], [])
  end.

Definition digits_value (ds : list Z) : Z :=
  fold_left (fun acc d => (10 * acc + d)%Z) ds 0%Z.

Definition take_sign (l : list ascii) : Z * list ascii :=
  match l with
  | c :: t =>
      if Ascii.eqb c "-"%char then ((-1)%Z, t)
      else if Ascii.eqb c "+"%char then (1%Z, t) else (1%Z, l)
  | [] => (1%Z, l)
  end.

(** [float(s)] on a decimal literal [[+-]digits[.digits][(e|E)[+-]digits]]
    (at least one mantissa digit).  The special spellings Python also
    accepts (inf, nan, digits with underscores) are reported as
    [ValueError] here. *)
Definition py_float (s : string) : res R :=
  let '(sg, l1) := take_sign (list_ascii_of_string s) in
  let '(ip, l2) := take_digits l1 in
  let '(fp, l3) :=
    match l2 with
    | c :: t => if Ascii.eqb c "."%char then take_digits t else ([], l2)
    | [] => ([], [])
    end in
  let mant := (sg * digits_value (ip ++ fp))%Z in
  if (length (ip ++ fp) =? 0)%nat then raise ValueError else
  match l3 with
  | [] => ret (IZR mant * powerRZ 10 (- Z.of_nat (length fp)))
  | c :: t =>
      if Ascii.eqb c "e"%char || Ascii.eqb c "E"%char then
        let '(esg, l4) := take_sign t in
        let '(ed, l5) := take_digits l4 in
        match ed, l5 with
        | _ :: _, [] =>
            ret (IZR mant * powerRZ 10 (esg * digits_value ed - Z.of_nat (length fp)))
        | _, _ => raise ValueError
        end
      else raise ValueError
  end.

(** [float(parts[i])]: the index first, then the conversion. *)
Definition float_part (parts : list string) (i : nat) : res R :=
  match nth_error parts i with
  | None => raise IndexError
  | Some s => py_float s
  end.

(** The loop of [read_ascii_stl] over the lines, with its locals [normal]
    and [verts]; [acc] holds the triangles appended so far, newest first. *)
Fixpoint ascii_loop (lines : list string) (nrm : option point)
    (verts : list point) (acc : list tri) : res (list tri) :=
  match lines with
  | [] => ret (rev acc)
  | line0 :: rest =>
      let line := strip line0 in
      if String.prefix "facet normal" line then
        let parts := split line in
        let* x := float_part parts 2 in
        let* y := float_part parts 3 in
        let* z := float_part parts 4 in
        ascii_loop rest (Some (mkPoint x y z)) [] acc
      else if String.prefix "vertex" line then
        let parts := split line in
        let* x := float_part parts 1 in
        let* y := float_part parts 2 in
        let* z := float_part parts 3 in
        ascii_loop rest nrm (verts ++ [mkPoint x y z]) acc
      else
        match String.prefix "endfacet" line, nrm, verts with
        | true, Some n, [a; b; c] => ascii_loop rest nrm verts (mkTri n a b c :: acc)
        | _, _, _ => ascii_loop rest nrm verts acc
        end
  end.

Definition read_ascii_stl (file : list Byte.byte) : res (list Byte.byte * list tri) :=
  let* text := decode_text file in
  let lines := readlines text in
  let header :=
    match lines with [] => [] | l :: _ => list_byte_of_string (strip l) end in
  let* tris := ascii_loop lines None [] [] in
  ret (header, tris).

(** The format dispatch at the top of [analyze]. *)
Inductive stl_format := ASCII | Binary.

Definition load (file : list Byte.byte) : stl_format * res (list Byte.byte * list tri) :=
  if is_ascii_stl file then (ASCII, read_ascii_stl file)
  else (Binary, read_binary_stl file).

(* ------------------------------------------------------------------ *)
(** ** Face normal analysis (the loop over [tri[0][2]] in [analyze]) *)

Inductive face_class := Top | Bottom | Vertical | Angled.

(** [if nz > 0.9 ... elif nz < -0.9 ... elif abs(nz) < 0.1 ... else ...] *)
Definition classify_nz (nz : R) : face_class :=
  if rlt (9/10) nz then Top
  else if rlt nz (-(9/10)) then Bottom
  else if rlt (Rabs nz) (1/10) then Vertical
  else Angled.

Record normal_counts := mkCounts
  { n_top : nat; n_bottom : nat; n_vertical : nat; n_angled : nat }.

Definition count_step (c : normal_counts) (t : tri) : normal_counts :=
  match classify_nz (pz (normal t)) with
  | Top => mkCounts (S (n_top c)) (n_bottom c) (n_vertical c) (n_angled c)
  | Bottom => mkCounts (n_top c) (S (n_bottom c)) (n_vertical c) (n_angled c)
  | Vertical => mkCounts (n_top c) (n_bottom c) (S (n_vertical c)) (n_angled c)
  | Angled => mkCounts (n_top c) (n_bottom c) (n_vertical c) (S (n_angled c))
  end.

(** [top = bottom = vertical = angled = 0; for tri in triangles: ...] *)
Definition face_normals (ts : list tri) : normal_counts :=
  fold_left count_step ts (mkCounts 0 0 0 0).

Definition face_class_eqb (a b : face_class) : bool :=
  match a, b with
  | Top, Top | Bottom, Bottom | Vertical, Vertical | Angled, Angled => true
  | _, _ => false
  end.

(** Whether a triangle falls in class [k]. *)
Definition in_class (k : face_class) (t : tri) : bool :=
  face_class_eqb (classify_nz (pz (normal t))) k.

(* ------------------------------------------------------------------ *)
(** ** analyze_slice *)

Inductive shape := Circular | RoughlyCircularOval | Irregular.

Record slice_info := mkSlice
  { si_verts : nat; si_x_range : R * R; si_y_range : R * R;
    si_width : R; si_height : R; si_center : R * R;
    si_avg_radius : R; si_variation : R; si_shape : shape }.

(** [[(v[0], v[1]) for v in all_verts if abs(v[2] - target_z) < tolerance]] *)
Definition slab_points (all_verts : list point) (target_z tol : R) : list (R * R) :=
  map (fun v => (px v, py v))
    (List.filter (fun v => rlt (Rabs (pz v - target_z)) tol) all_verts).

Definition shape_of (variation : R) : shape :=
  if rlt variation (1/10) then Circular
  else if rlt variation (1/4) then RoughlyCircularOval
  else Irregular.

(** The nested [analyze_slice(target_z, tolerance=0.25)] of [analyze];
    [x ** 0.5] on a non-negative float is its square root. *)
Definition analyze_slice (all_verts : list point) (target_z tol : R) : option slice_info :=
  let verts := slab_points all_verts target_z tol in
  if (length verts <? 10)%nat then None else
  let sx := map fst verts in
  let sy := map snd verts in
  let cx := (min_list sx + max_list sx) / 2 in
  let cy := (min_list sy + max_list sy) / 2 in
  let dists := map (fun p => sqrt ((fst p - cx) ^ 2 + (snd p - cy) ^ 2)) verts in
  let avg_r := sum_list dists / INR (length dists) in
  let std_r := sqrt (sum_list (map (fun dd => (dd - avg_r) ^ 2) dists) / INR (length dists)) in
  let variation := if rlt 0 avg_r then std_r / avg_r else 0 in
  Some (mkSlice (length verts) (min_list sx, max_list sx) (min_list sy, max_list sy)
          (max_list sx - min_list sx) (max_list sy - min_list sy) (cx, cy)
          avg_r variation (shape_of variation)).

(* ------------------------------------------------------------------ *)
(** ** Reconstruction recommendation *)

Inductive recommendation :=
| ManualParametric
| Polyhedron (reduce : option R)   (** the suggested [--reduce] ratio *)
| SlicedCrossSection.

(** The [if / elif / else] at the end of [analyze], as a function of
    [len(triangles)], [flat_vertical_pct] and [curve_pct]. *)
Definition recommend (n : nat) (flat_vertical_pct curve_pct : R) : recommendation :=
  if (n <? 500)%nat && rlt 80 flat_vertical_pct then ManualParametric
  else if (1000 <? n)%nat || rlt 30 curve_pct then
    Polyhedron (if (50000 <? n)%nat then Some (Rmax (1/10) (20000 / INR n)) else None)
  else SlicedCrossSection.

(* ------------------------------------------------------------------ *)
(** ** Report lines

    The printed report, one constructor per kind of line; a line carries
    the values it formats. *)

Inductive line :=
| LUsage
| LNotFound (path : string)
| LNoTriangles
| LFormat (f : stl_format)
| LTriangles (n : nat)
| LBBox (min_x max_x min_y max_y min_z max_z : R)
| LNormals (c : normal_counts)
| LSlice (z : R) (info : option slice_info)
| LAsciiLabel (z : R)
| LAsciiRow (y : R) (cells : list ascii)
| LPocket (z : R) (count : nat) (x_range y_range : R * R) (width height : R)
| LNoPockets
| LRecommend (r : recommendation).

(* ------------------------------------------------------------------ *)
(** ** ascii_cross_section *)

Definition zrange (lo hi : Z) : list Z :=
  map (fun i => (lo + Z.of_nat i)%Z) (seq 0 (Z.to_nat (hi + 1 - lo))).

Definition hash : ascii := "#"%char.
Definition blank : ascii := " "%char.

(** [grid[r][c] = '#'] *)
Definition mark (grid : list (list ascii)) (r c : nat) : list (list ascii) :=
  alter (fun row => <[c := hash]> row) r grid.

(** [ascii_cross_section(verts_2d, width, height, grid_res, label)]; the
    label string [f"\n  --- z={z:.1f}mm ---"] is represented by the height
    [z] it prints, the empty label by [None]. *)
Definition ascii_cross_section (verts_2d : list (R * R)) (width height grid_res : R)
    (label : option R) : list line :=
  match verts_2d with
  | [] => []
  | _ =>
    let min_x := min_list (map fst verts_2d) in
    let min_y := min_list (map snd verts_2d) in
    let cols := (py_int (width / grid_res) + 2)%Z in
    let rows := (py_int (height / grid_res) + 2)%Z in
    let grid0 := repeat (repeat blank (Z.to_nat cols)) (Z.to_nat rows) in
    let grid :=
      fold_left (fun g p =>
        let c := py_int ((fst p - min_x) / grid_res) in
        let r := py_int ((snd p - min_y) / grid_res) in
        if ((0 <=? r) && (r <? rows) && (0 <=? c) && (c <? cols))%Z
        then mark g (Z.to_nat r) (Z.to_nat c) else g) verts_2d grid0 in
    let label_lines := match label with Some z => [LAsciiLabel z] | None => [] end in
    label_lines ++
    flat_map (fun r =>
      let y_val := min_y + IZR r * grid_res in
      let ln := nth (Z.to_nat r) grid [] in
      if existsb (Ascii.eqb hash) ln then [LAsciiRow y_val ln] else [])
      (rev (zrange 0 (rows - 1)))
  end.

(** One iteration of the ASCII cross-section loop of [analyze]. *)
Definition ascii_block (all_verts : list point) (w h z_range z_target : R) : list line :=
  let tol := Rmax (1/4) (z_range * (3/100)) in
  let verts_2d := slab_points all_verts z_target tol in
  if (length verts_2d <? 10)%nat then []
  else ascii_cross_section verts_2d w h 2 (Some z_target).

(* ------------------------------------------------------------------ *)
(** ** detect_pockets *)

Abbreviation cell := (Z * Z)%type.

(** [grid.get((gx, gy), 0)] *)
Definition grid_get (g : gmap cell nat) (k : cell) : nat :=
  match g !! k with Some n => n | None => 0%nat end.

(** [grid[(gx, gy)] = grid.get((gx, gy), 0) + 1] for every cell. *)
Definition build_grid (cells : list cell) : gmap cell nat :=
  fold_left (fun g k => <[k := S (grid_get g k)]> g) cells ∅.

(** [(gx, gy) not in grid or grid[(gx, gy)] < 3] *)
Definition sparse (g : gmap cell nat) (k : cell) : bool :=
  match g !! k with None => true | Some n => (n <? 3)%nat end.

(** [(gx + dx, gy + dy) in grid and grid[(gx + dx, gy + dy)] >= 3] *)
Definition dense (g : gmap cell nat) (k : cell) : bool :=
  match g !! k with Some n => (3 <=? n)%nat | None => false end.

(** [for dx in [-1, 0, 1] for dy in [-1, 0, 1]] *)
Definition offsets : list cell := list_prod [(-1)%Z; 0%Z; 1%Z] [(-1)%Z; 0%Z; 1%Z].

(** [neighbors = sum(1 for dx ... for dy ... if ...)] *)
Definition neighbors (g : gmap cell nat) (gx gy : Z) : nat :=
  length (List.filter (fun d => dense g ((gx + d.1)%Z, (gy + d.2)%Z)) offsets).

Definition zmin_list (l : list Z) : Z :=
  match l with [] => 0%Z | x :: t => fold_left Z.min t x end.
Definition zmax_list (l : list Z) : Z :=
  match l with [] => 0%Z | x :: t => fold_left Z.max t x end.

Definition grid_keys (g : gmap cell nat) : list cell := map fst (map_to_list g).

(** The double loop over [gx_range] and [gy_range]; it yields the cells
    whose centres [(rx, ry)] are appended to [empty_interior]. *)
Definition empty_interior (g : gmap cell nat) : list cell :=
  let all_gx := map fst (grid_keys g) in
  let all_gy := map snd (grid_keys g) in
  flat_map (fun gx =>
    flat_map (fun gy =>
      if sparse g (gx, gy) && (4 <=? neighbors g gx gy)%nat then [(gx, gy)] else [])
      (zrange (zmin_list all_gy) (zmax_list all_gy)))
    (zrange (zmin_list all_gx) (zmax_list all_gx)).

Record pocket_info := mkPocket
  { pk_count : nat; pk_x_range : R * R; pk_y_range : R * R;
    pk_width : R; pk_height : R }.

Definition detect_pockets (all_verts : list point) (min_x min_y z_target tol grid_size : R)
  : option pocket_info :=
  let verts_2d := map (fun v => (px v - min_x, py v - min_y))
    (List.filter (fun v => rlt (Rabs (pz v - z_target)) tol) all_verts) in
  if (length verts_2d <? 10)%nat then None else
  let g := build_grid
    (map (fun p => (py_int (fst p / grid_size), py_int (snd p / grid_size))) verts_2d) in
  match grid_keys g with
  | [] => None
  | _ =>
    let centres := map (fun c => (IZR c.1 * grid_size + grid_size / 2,
                                  IZR c.2 * grid_size + grid_size / 2))
                       (empty_interior g) in
    match centres with
    | [] => None
    | _ =>
      let ex := map fst centres in
      let ey := map snd centres in
      Some (mkPocket (length centres) (min_list ex, max_list ex)
              (min_list ey, max_list ey)
              (max_list ex - min_list ex) (max_list ey - min_list ey))
    end
  end.

(* ------------------------------------------------------------------ *)
(** ** analyze and the entry point *)

(** [sorted(set(levels))] *)
Fixpoint insert_level (z : R) (l : list R) : list R :=
  match l with
  | [] => [z]
  | a :: t =>
      if Req_EM_T z a then l
      else if rlt z a then z :: l else a :: insert_level z t
  end.

Definition sorted_set (l : list R) : list R := fold_right insert_level [] l.

(** The report printed by [analyze] for a non-empty mesh.  The file name
    and size, the Z-level histogram and the floor/ceiling sections only
    print and are left out of the model. *)
Definition report (fmt : stl_format) (ts : list tri) : list line :=
  let n := length ts in
  let all_verts := flat_map (fun t => [v1 t; v2 t; v3 t]) ts in
  let xs := map px all_verts in
  let ys := map py all_verts in
  let zs := map pz all_verts in
  let min_x := min_list xs in let max_x := max_list xs in
  let min_y := min_list ys in let max_y := max_list ys in
  let min_z := min_list zs in let max_z := max_list zs in
  let w := max_x - min_x in let h := max_y - min_y in
  let c := face_normals ts in
  let z_range := max_z - min_z in
  let z_levels := sorted_set
    [min_z; min_z + z_range * (1/10); min_z + z_range * (1/4);
     min_z + z_range * (1/2); min_z + z_range * (3/4);
     min_z + z_range * (9/10); max_z] in
  let ascii_levels :=
    [min_z + 1/5; min_z + z_range * (1/4); min_z + z_range * (1/2);
     min_z + z_range * (3/4); max_z - 1/5] in
  let pocket_levels :=
    map (fun f => min_z + z_range * (INR f / 10)) [1; 2; 3; 4; 5; 6; 7; 8; 9]%nat in
  let pockets := flat_map (fun zt =>
    match detect_pockets all_verts min_x min_y zt (3/10) 2 with
    | Some p => [LPocket zt (pk_count p) (pk_x_range p) (pk_y_range p)
                         (pk_width p) (pk_height p)]
    | None => []
    end) pocket_levels in
  let flat_vertical_pct :=
    INR (n_top c + n_bottom c + n_vertical c) / INR n * 100 in
  let curve_pct := INR (n_angled c) / INR n * 100 in
  [LFormat fmt; LTriangles n; LBBox min_x max_x min_y max_y min_z max_z; LNormals c]
  ++ map (fun z => LSlice z (analyze_slice all_verts z (1/4))) z_levels
  ++ flat_map (ascii_block all_verts w h z_range) ascii_levels
  ++ (match pockets with [] => [LNoPockets] | _ => pockets end)
  ++ [LRecommend (recommend n flat_vertical_pct curve_pct)].

(** [analyze(filepath)]: load, then [if not triangles: print(...); return]. *)
Definition analyze (file : list Byte.byte) : res (list line) :=
  let '(fmt, parsed) := load file in
  let* ht := parsed in
  match snd ht with
  | [] => ret [LNoTriangles]
  | ts => ret (report fmt ts)
  end.

(** How the process ends: an exit status with the printed lines, or an
    uncaught exception (Python prints a traceback and exits with 1). *)
Inductive outcome :=
| Exited (out : list line) (code : Z)
| Crashed (e : exn).

(** The [if __name__ == "__main__"] block; [fs] maps the paths of existing
    files to their contents.  A path that exists but cannot be read as a
    file (a directory, say) is outside the model: [fs] gives it [None],
    the not-found branch. *)
Definition main (argv : list string) (fs : string -> option (list Byte.byte)) : outcome :=
  match argv with
  | _ :: path :: _ =>
      match fs path with
      | None => Exited [LNotFound path] 1
      | Some file =>
          match analyze file with
          | inl e => Crashed e
          | inr out => Exited out 0
          end
      end
  | _ => Exited [LUsage] 1
  end.

(** ** detect_surfaces and the Z-level histogram

    Python's [round(x, 1)] is left as a parameter [round1]: the
    properties below hold whatever the rounding does.  A dict keyed by
    floats is an association list in insertion order. *)

(** [d[k] = d.get(k, 0) + 1], or [d[k]["total"] += 1] on a defaultdict. *)
Fixpoint bump (k : R) (h : list (R * nat)) : list (R * nat) :=
  match h with
  | [] => [(k, 1%nat)]
  | (k', c) :: t => if Req_EM_T k k' then (k', S c) :: t else (k', c) :: bump k t
  end.

(** [detect_surfaces(triangles, min_y)]: the [avg_y] it computes is unused. *)
Definition detect_surfaces (round1 : R -> R) (ts : list tri) (min_y : R)
  : list (R * nat) * list (R * nat) :=
  fold_left (fun acc t =>
    let '(top, bot) := acc in
    let avg_z := round1 ((pz (v1 t) + pz (v2 t) + pz (v3 t)) / 3) in
    if rlt (9/10) (pz (normal t)) then (bump avg_z top, bot)
    else if rlt (pz (normal t)) (-(9/10)) then (top, bump avg_z bot)
    else (top, bot)) ts ([], []).

(** [z_hist[round(v[2], 1)] = z_hist.get(zr, 0) + 1] over [all_verts]. *)
Definition z_hist (round1 : R -> R) (all_verts : list point) : list (R * nat) :=
  fold_left (fun h v => bump (round1 (pz v)) h) all_verts [].

(** The sum of the counts of a tally. *)
Fixpoint total (h : list (R * nat)) : nat :=
  match h with [] => 0%nat | (_, c) :: t => (c + total t)%nat end.



(** Lines whose stripped text starts with [pre]. *)
Definition count_prefixed (pre : string) (lines : list string) : nat :=
  length (List.filter (fun l => String.prefix pre (strip l)) lines).

(* ------------------------------------------------------------------ *)
(** Universal-newline translation: \r\n and a lone \r become \n. *)
Fixpoint translate_newlines (l : list ascii) : list ascii :=
  match l with
  | [] => []
  | c :: t =>
      if Ascii.eqb c cr then
        nl :: match t with
              | d :: t' => if Ascii.eqb d nl then translate_newlines t' else translate_newlines t
              | [] => []
              end
      else c :: translate_newlines t
  end.

(** A line as [readlines] returns it: non-empty, with a newline at most
    as its last character and no carriage return. *)
Definition text_line (l : list ascii) : Prop :=
  l <> [] /\ exists body, (l = body ++ [nl] \/ l = body) /\ ~ In nl body /\ ~ In cr body.

(** Whether a report line is a cross-section line. *)
Definition is_slice (l : line) : bool :=
  match l with LSlice _ _ => true | _ => false end.

(** ASCII STL text as a writer produces it, to load back: words are
    non-empty runs of printable characters, joined by single spaces; a
    coordinate is spelled by any word that [float] reads as it. *)
Definition printable (c : ascii) : bool :=
  ((33 <=? nat_of_ascii c) && (nat_of_ascii c <=? 126))%nat.

Definition word_ok (w : list ascii) : Prop :=
  w <> [] /\ Forall (fun c => printable c = true) w.

Fixpoint unwords (ws : list (list ascii)) : list ascii :=
  match ws with
  | [] => []
  | [w] => w
  | w :: t => w ++ " "%char :: unwords t
  end.

Definition spells (w : list ascii) (x : R) : Prop :=
  word_ok w /\ py_float (string_of_list_ascii w) = ret x.

Definition spells3 (ws : list (list ascii)) (p : point) : Prop :=
  match ws with
  | [a; b; c] => spells a (px p) /\ spells b (py p) /\ spells c (pz p)
  | _ => False
  end.

Record spelled_tri := mkSpelled
  { s_normal : list (list ascii); s_v1 : list (list ascii);
    s_v2 : list (list ascii); s_v3 : list (list ascii) }.

Definition spells_tri (s : spelled_tri) (t : tri) : Prop :=
  spells3 (s_normal s) (normal t) /\ spells3 (s_v1 s) (v1 t) /\
  spells3 (s_v2 s) (v2 t) /\ spells3 (s_v3 s) (v3 t).

Definition word (s : string) : list ascii := list_ascii_of_string s.

Definition facet_block (s : spelled_tri) : list (list ascii) :=
  [unwords (word "facet" :: word "normal" :: s_normal s);
   unwords [word "outer"; word "loop"];
   unwords (word "vertex" :: s_v1 s);
   unwords (word "vertex" :: s_v2 s);
   unwords (word "vertex" :: s_v3 s);
   word "endloop";
   word "endfacet"].

(** [solid name], the facets, [endsolid name], one line each. *)
Definition stl_text (name : list ascii) (ss : list spelled_tri) : list ascii :=
  concat (map (fun l => l ++ [nl])
    (unwords [word "solid"; name] :: concat (map facet_block ss) ++
     [unwords [word "endsolid"; name]])).

(** ** Notions of the specification

    Stated from the spec's words, to compare the code's results with. *)

(** The [i]-th 50-byte record of a record area. *)
Definition record_at (body : list Byte.byte) (i : nat) : tri :=
  parse_record (firstn 50 (skipn (50 * i) body)).

(** The smallest and largest element of a list, as the spec describes
    the bounding box. *)
Definition is_min (l : list R) (m : R) : Prop := In m l /\ forall x, In x l -> m <= x.
Definition is_max (l : list R) (m : R) : Prop := In m l /\ forall x, In x l -> x <= m.

(** The notions of the spec's cross-section analysis: Euclidean distance,
    arithmetic mean and population standard deviation. *)
Definition euclid (c p : R * R) : R :=
  sqrt ((fst p - fst c) ^ 2 + (snd p - snd c) ^ 2).

Definition mean (l : list R) : R := sum_list l / INR (length l).

Definition pop_std (l : list R) : R :=
  sqrt (mean (map (fun d => (d - mean l) ^ 2) l)).

(** The spec's 8 immediate neighbours (the cell itself excluded). *)
Definition neighbors8 : list cell :=
  [((-1)%Z, (-1)%Z); ((-1)%Z, 0%Z); ((-1)%Z, 1%Z); (0%Z, (-1)%Z);
   (0%Z, 1%Z); (1%Z, (-1)%Z); (1%Z, 0%Z); (1%Z, 1%Z)].

(** [c] lies in the rectangle spanned by the occupied cells. *)
Definition in_occupied_span (g : gmap cell nat) (c : cell) : Prop :=
  (exists k n, g !! k = Some n /\ (k.1 <= c.1)%Z) /\
  (exists k n, g !! k = Some n /\ (c.1 <= k.1)%Z) /\
  (exists k n, g !! k = Some n /\ (k.2 <= c.2)%Z) /\
  (exists k n, g !! k = Some n /\ (c.2 <= k.2)%Z).

(* ================================================================== *)
(** * Properties *)

Section Helpers.

Lemma rlt_true (a b : R) : a < b -> rlt a b = true.
Proof. intros H. unfold rlt. destruct (Rlt_dec a b); [reflexivity | contradiction]. Qed.

Lemma rlt_false (a b : R) : ~ a < b -> rlt a b = false.
Proof. intros H. unfold rlt. destruct (Rlt_dec a b); [contradiction | reflexivity]. Qed.

Lemma rlt_iff (a b : R) : rlt a b = true <-> a < b.
Proof. unfold rlt. destruct (Rlt_dec a b); split; congruence || tauto. Qed.

Lemma rlt_false_iff (a b : R) : rlt a b = false <-> ~ a < b.
Proof. unfold rlt. destruct (Rlt_dec a b); split; congruence || tauto. Qed.

Lemma starts_with_iff (pre bs : list Byte.byte) :
  starts_with pre bs = true <-> exists rest, bs = pre ++ rest.
Proof.
  revert bs; induction pre as [|p pre IH]; intros bs; simpl.
  - split; [intros _; exists bs; reflexivity | auto].
  - destruct bs as [|b bs].
    + split; [discriminate | intros [rest H]; discriminate].
    + rewrite andb_true_iff, IH. split.
      * intros [Hpb [rest ->]]. apply Byte.byte_dec_bl in Hpb. subst. eauto.
      * intros [rest H]. injection H as -> ->. split; [apply Byte.byte_dec_lb; reflexivity | eauto].
Qed.

Lemma existsb_null_iff (l : list Byte.byte) :
  existsb (Byte.eqb null_byte) l = true <-> In null_byte l.
Proof.
  rewrite existsb_exists. split.
  - intros [x [Hin Hx]]. apply Byte.byte_dec_bl in Hx. subst. exact Hin.
  - intros Hin. exists null_byte. split; [exact Hin | apply Byte.byte_dec_lb; reflexivity].
Qed.

End Helpers.

(** Turn the boolean comparisons in the context into order facts. *)
Ltac rlt_facts :=
  repeat match goal with
  | H : rlt _ _ = true |- _ => apply rlt_iff in H
  | H : rlt _ _ = false |- _ => apply rlt_false_iff in H
  end.


(** ** Format detection *)

(** C3: a file is text exactly when its first 80 bytes, after stripping
    leading whitespace, begin with [solid] and contain no null byte; a
    file starting with [solid] followed by a null byte is loaded by the
    binary parser. *)
Theorem is_ascii_stl_iff (file : list Byte.byte) :
  (is_ascii_stl file = true <->
     (exists rest, lstrip (firstn 80 file) = bytes_of "solid" ++ rest) /\
     ~ In null_byte (lstrip (firstn 80 file))) /\
  (forall rest : list Byte.byte,
     let f := bytes_of "solid" ++ null_byte :: rest in
     is_ascii_stl f = false /\ load f = (Binary, read_binary_stl f)).
Proof.
  split.
  - unfold is_ascii_stl. rewrite andb_true_iff, starts_with_iff, negb_true_iff.
    rewrite <- existsb_null_iff. destruct (existsb _ _); intuition congruence.
  - intros rest f.
    assert (Hf : is_ascii_stl f = false) by reflexivity.
    split; [exact Hf | unfold load; rewrite Hf; reflexivity].
Qed.

(** ** Binary loader *)

Section BinaryLoader.

Lemma read_records_spec (n : nat) (body : list Byte.byte) :
  read_records n body = map (record_at body) (seq 0 (Nat.min n (length body / 50))).
Proof.
  revert body; induction n as [|n IH]; intros body; [reflexivity|].
  simpl read_records. rewrite length_firstn.
  destruct (Nat.ltb_spec (Nat.min 50 (length body)) 50) as [Hlt|Hge].
  - rewrite (Nat.div_small (length body) 50) by lia. reflexivity.
  - rewrite IH, length_skipn.
    replace (length body) with (1 * 50 + (length body - 50))%nat at 2 by lia.
    rewrite Nat.div_add_l by lia.
    change (Nat.min (S n) (1 + (length body - 50) / 50))
      with (S (Nat.min n ((length body - 50) / 50))).
    cbn [seq map]. f_equal.
    rewrite <- seq_shift, map_map. apply map_ext. intros i.
    unfold record_at. rewrite skipn_skipn.
    replace (50 * S i)%nat with (50 * i + 50)%nat by lia. reflexivity.
Qed.

End BinaryLoader.

(** C8: when at least the header and the count are present, the binary
    parser never fails: it returns the header and, in file order, the
    records that are complete, stopping at the first record with fewer
    than 50 bytes left (or after [num_tri] records). *)
Theorem read_binary_stl_partial_read (file : list Byte.byte) :
  (84 <= length file)%nat ->
  read_binary_stl file =
    ret (firstn 80 file,
         map (record_at (skipn 84 file))
           (seq 0 (Nat.min (Z.to_nat (le_uint (firstn 4 (skipn 80 file))))
                           ((length file - 84) / 50)))).
Proof.
  intros H. unfold read_binary_stl.
  rewrite length_firstn, length_skipn.
  destruct (Nat.ltb_spec (Nat.min 4 (length file - 80)) 4) as [Hlt|_]; [lia|].
  rewrite read_records_spec, length_skipn. reflexivity.
Qed.

(** Witness: a 134-byte file announcing two records holds one complete
    record, and the parser returns exactly that one. *)
Lemma read_binary_stl_partial_read_witness :
  let f := repeat Byte.x00 80 ++ [Byte.x02; Byte.x00; Byte.x00; Byte.x00]
           ++ repeat Byte.x00 50 in
  (84 <= length f)%nat /\
  read_binary_stl f = ret (firstn 80 f, [record_at (skipn 84 f) 0]).
Proof.
  intros f. split; [apply Nat.leb_le; reflexivity|].
  rewrite (read_binary_stl_partial_read f) by (apply Nat.leb_le; reflexivity).
  reflexivity.
Defined.

(** C9: a file shorter than 84 bytes makes the binary parser raise
    [struct.error] while unpacking the triangle count; such a file (83
    null bytes) is classified binary, and the exception escapes [main]. *)
Theorem read_binary_stl_short_file_raises :
  (forall file : list Byte.byte,
     (length file < 84)%nat -> read_binary_stl file = raise StructError) /\
  (let f := repeat Byte.x00 83 in
   (length f < 84)%nat /\ is_ascii_stl f = false /\
   load f = (Binary, raise StructError) /\
   main ["analyze-stl.py"; "short.stl"]%string
        (fun p => if String.eqb p "short.stl"%string then Some f else None)
   = Crashed StructError).
Proof.
  split.
  - intros file H. unfold read_binary_stl.
    rewrite length_firstn, length_skipn.
    destruct (Nat.ltb_spec (Nat.min 4 (length file - 80)) 4); [reflexivity | lia].
  - repeat split; [apply Nat.ltb_lt | ..]; reflexivity.
Qed.

Lemma read_binary_stl_short_file_raises_witness :
  (length (repeat Byte.x00 10) < 84)%nat /\
  read_binary_stl (repeat Byte.x00 10) = raise StructError.
Proof.
  split; [simpl; lia|].
  apply (proj1 read_binary_stl_short_file_raises). simpl; lia.
Defined.

(** ** Entry point *)

(** C1 (as the code behaves): an existing file whose parse yields no
    triangle prints the no-triangles message, and the process then exits
    with status 0, since [analyze] returns instead of exiting. *)
Theorem main_empty_mesh_exit_zero (argv0 path : string)
    (fs : string -> option (list Byte.byte)) (file header : list Byte.byte)
    (fmt : stl_format) :
  fs path = Some file -> load file = (fmt, ret (header, [])) ->
  main [argv0; path] fs = Exited [LNoTriangles] 0%Z.
Proof.
  intros Hfs Hload. unfold main. rewrite Hfs. unfold analyze. rewrite Hload.
  reflexivity.
Qed.

(** Witness: a binary file of 84 null bytes (header and a zero count). *)
Lemma main_empty_mesh_exit_zero_witness :
  let f := repeat Byte.x00 84 in
  let fs := fun p => if String.eqb p "empty.stl"%string then Some f else None in
  fs "empty.stl"%string = Some f /\
  load f = (Binary, ret (repeat Byte.x00 80, [])) /\
  main ["analyze-stl.py"; "empty.stl"]%string fs = Exited [LNoTriangles] 0%Z.
Proof.
  intros f fs.
  assert (H1 : fs "empty.stl"%string = Some f) by reflexivity.
  assert (H2 : load f = (Binary, ret (repeat Byte.x00 80, []))) by (vm_compute; reflexivity).
  split; [exact H1|]. split; [exact H2|].
  exact (main_empty_mesh_exit_zero "analyze-stl.py"%string "empty.stl"%string fs f _ _ H1 H2).
Defined.

(** ** Face normal analysis *)

Section NormalCounts.

Lemma face_normals_fold (ts : list tri) (c : normal_counts) :
  let r := fold_left count_step ts c in
  n_top r = (n_top c + length (List.filter (in_class Top) ts))%nat /\
  n_bottom r = (n_bottom c + length (List.filter (in_class Bottom) ts))%nat /\
  n_vertical r = (n_vertical c + length (List.filter (in_class Vertical) ts))%nat /\
  n_angled r = (n_angled c + length (List.filter (in_class Angled) ts))%nat.
Proof.
  revert c; induction ts as [|t ts IH]; intros c; simpl.
  - lia.
  - destruct (IH (count_step c t)) as (H1 & H2 & H3 & H4).
    unfold count_step, in_class in *.
    destruct (classify_nz (pz (normal t))); simpl in *; lia.
Qed.

Lemma filter_classes_length (ts : list tri) :
  (length (List.filter (in_class Top) ts) +
   length (List.filter (in_class Bottom) ts) +
   length (List.filter (in_class Vertical) ts) +
   length (List.filter (in_class Angled) ts))%nat
  = length ts.
Proof.
  induction ts as [|t ts IH]; simpl; [reflexivity|].
  unfold in_class in *. simpl in *.
  destruct (classify_nz (pz (normal t))); simpl; lia.
Qed.

End NormalCounts.

(** C5: the class of a triangle depends on [normal.z] alone, through the
    four fixed thresholds, and exactly one class applies; each counter of
    the loop counts the triangles of its class, and the four counters sum
    to the number of triangles. *)
Theorem face_normals_partition :
  (forall nz : R,
     (classify_nz nz = Top <-> 9/10 < nz) /\
     (classify_nz nz = Bottom <-> nz < -(9/10)) /\
     (classify_nz nz = Vertical <-> Rabs nz < 1/10) /\
     (classify_nz nz = Angled <->
        ~ 9/10 < nz /\ ~ nz < -(9/10) /\ ~ Rabs nz < 1/10)) /\
  (forall ts : list tri,
     let c := face_normals ts in
     n_top c = length (List.filter (in_class Top) ts) /\
     n_bottom c = length (List.filter (in_class Bottom) ts) /\
     n_vertical c = length (List.filter (in_class Vertical) ts) /\
     n_angled c = length (List.filter (in_class Angled) ts) /\
     (n_top c + n_bottom c + n_vertical c + n_angled c = length ts)%nat).
Proof.
  split.
  - intros nz. unfold classify_nz.
    assert (Habs : Rabs nz < 1/10 -> - (1/10) < nz < 1/10).
    { intros H. unfold Rabs in H. destruct (Rcase_abs nz); lra. }
    destruct (Rlt_dec (9/10) nz) as [H1|H1];
      [rewrite (rlt_true _ _ H1) | rewrite (rlt_false _ _ H1)];
    [|destruct (Rlt_dec nz (-(9/10))) as [H2|H2];
      [rewrite (rlt_true _ _ H2) | rewrite (rlt_false _ _ H2)];
    [|destruct (Rlt_dec (Rabs nz) (1/10)) as [H3|H3];
      [rewrite (rlt_true _ _ H3) | rewrite (rlt_false _ _ H3)]]].
    all: repeat split; intros; try discriminate; try tauto; try lra.
    all: try (destruct (Habs H3); lra).
    all: try (match goal with H : _ < Rabs _ |- _ => idtac end; lra).
  - intros ts c. unfold c, face_normals.
    destruct (face_normals_fold ts (mkCounts 0 0 0 0)) as (H1 & H2 & H3 & H4).
    simpl in H1, H2, H3, H4. rewrite H1, H2, H3, H4.
    repeat split; try reflexivity. apply filter_classes_length.
Qed.

(** ** Reconstruction recommendation *)

(** C4: [recommend] is a function of the triangle count and the two
    percentages, with the three branches in precedence order and the
    decimation ratio above 50000 triangles; the three examples of the
    spec hold. *)
Theorem recommend_precedence :
  (forall (n : nat) (fv cp : R),
     ((n < 500)%nat /\ 80 < fv -> recommend n fv cp = ManualParametric) /\
     (~ ((n < 500)%nat /\ 80 < fv) -> ((1000 < n)%nat \/ 30 < cp) ->
        recommend n fv cp =
          Polyhedron (if (50000 <? n)%nat then Some (Rmax (1/10) (20000 / INR n)) else None)) /\
     (~ ((n < 500)%nat /\ 80 < fv) -> ~ ((1000 < n)%nat \/ 30 < cp) ->
        recommend n fv cp = SlicedCrossSection)) /\
  recommend 300 60 20 = SlicedCrossSection /\
  recommend 1200 10 5 = Polyhedron None /\
  recommend 400 85 2 = ManualParametric.
Proof.
  assert (Hgen : forall (n : nat) (fv cp : R),
     ((n < 500)%nat /\ 80 < fv -> recommend n fv cp = ManualParametric) /\
     (~ ((n < 500)%nat /\ 80 < fv) -> ((1000 < n)%nat \/ 30 < cp) ->
        recommend n fv cp =
          Polyhedron (if (50000 <? n)%nat then Some (Rmax (1/10) (20000 / INR n)) else None)) /\
     (~ ((n < 500)%nat /\ 80 < fv) -> ~ ((1000 < n)%nat \/ 30 < cp) ->
        recommend n fv cp = SlicedCrossSection)).
  { intros n fv cp. unfold recommend.
    destruct (Nat.ltb_spec n 500); destruct (rlt 80 fv) eqn:Hf;
    destruct (Nat.ltb_spec 1000 n); destruct (rlt 30 cp) eqn:Hc;
    rlt_facts; simpl;
    repeat split; intros; try reflexivity; exfalso; intuition (lia || lra). }
  split; [exact Hgen|].
  split; [|split].
  - apply (proj2 (proj2 (Hgen 300%nat 60 20))); [intros [_ H]; lra | intros [H|H]; lia || lra].
  - rewrite (proj1 (proj2 (Hgen 1200%nat 10 5))); [reflexivity | intros [H _]; lia | left; lia].
  - apply (proj1 (Hgen 400%nat 85 2)). split; [lia | lra].
Qed.

Lemma recommend_precedence_witness :
  ((400 < 500)%nat /\ 80 < 85) /\ recommend 400 85 2 = ManualParametric.
Proof.
  assert (H : (400 < 500)%nat /\ 80 < 85) by (split; [lia | lra]).
  split; [exact H | exact (proj1 (proj1 recommend_precedence 400%nat 85 2) H)].
Defined.

(** ** Cross-section analysis *)

Section MinMax.

Lemma fold_Rmin_spec (t : list R) (x : R) :
  In (fold_left Rmin t x) (x :: t) /\
  forall y, In y (x :: t) -> fold_left Rmin t x <= y.
Proof.
  revert x; induction t as [|a t IH]; intros x; simpl.
  - split; [auto | intros y [<-|[]]; lra].
  - destruct (IH (Rmin x a)) as [Hin Hle]. split.
    + destruct Hin as [Hm|Hm]; [|auto].
      rewrite <- Hm. unfold Rmin. destruct (Rle_dec x a); auto.
    + specialize (Hle (Rmin x a) (or_introl eq_refl)) as Hxa.
      intros y [<-|[<-|Hy]].
      * pose proof (Rmin_l x a). lra.
      * pose proof (Rmin_r x a). lra.
      * apply Hle. right. exact Hy.
Qed.

Lemma fold_Rmax_spec (t : list R) (x : R) :
  In (fold_left Rmax t x) (x :: t) /\
  forall y, In y (x :: t) -> y <= fold_left Rmax t x.
Proof.
  revert x; induction t as [|a t IH]; intros x; simpl.
  - split; [auto | intros y [<-|[]]; lra].
  - destruct (IH (Rmax x a)) as [Hin Hle]. split.
    + destruct Hin as [Hm|Hm]; [|auto].
      rewrite <- Hm. unfold Rmax. destruct (Rle_dec x a); auto.
    + specialize (Hle (Rmax x a) (or_introl eq_refl)) as Hxa.
      intros y [<-|[<-|Hy]].
      * pose proof (Rmax_l x a). lra.
      * pose proof (Rmax_r x a). lra.
      * apply Hle. right. exact Hy.
Qed.

End MinMax.

Lemma min_list_is_min (l : list R) : l <> [] -> is_min l (min_list l).
Proof. destruct l as [|x t]; [congruence|]. intros _. apply fold_Rmin_spec. Qed.

Lemma max_list_is_max (l : list R) : l <> [] -> is_max l (max_list l).
Proof. destruct l as [|x t]; [congruence|]. intros _. apply fold_Rmax_spec. Qed.

Lemma in_slab_points (all_verts : list point) (target_z tol : R) (p : R * R) :
  In p (slab_points all_verts target_z tol) <->
  exists v, In v all_verts /\ Rabs (pz v - target_z) < tol /\ p = (px v, py v).
Proof.
  unfold slab_points. rewrite in_map_iff. split.
  - intros [v [<- Hv]]. apply filter_In in Hv as [Hin Hr].
    apply rlt_iff in Hr. eauto.
  - intros [v (Hin & Hr & ->)]. exists v. split; [reflexivity|].
    apply filter_In. split; [exact Hin | apply rlt_iff; exact Hr].
Qed.

Lemma analyze_slice_some_iff (all_verts : list point) (target_z tol : R) :
  (10 <= length (slab_points all_verts target_z tol))%nat <->
  exists r, analyze_slice all_verts target_z tol = Some r.
Proof.
  unfold analyze_slice.
  destruct (Nat.ltb_spec (length (slab_points all_verts target_z tol)) 10).
  - split; [lia | intros [r Hr]; discriminate].
  - split; [eauto | lia].
Qed.

(** C6: the slab holds exactly the points within the tolerance of the
    target height; the result is "insufficient data" ([None]) exactly
    when fewer than 10 points qualify, and a result counts them all. *)
Theorem analyze_slice_threshold (all_verts : list point) (target_z tol : R) :
  (forall p, In p (slab_points all_verts target_z tol) <->
     exists v, In v all_verts /\ Rabs (pz v - target_z) < tol /\ p = (px v, py v)) /\
  (analyze_slice all_verts target_z tol = None <->
     (length (slab_points all_verts target_z tol) < 10)%nat) /\
  (forall r, analyze_slice all_verts target_z tol = Some r ->
     si_verts r = length (slab_points all_verts target_z tol)).
Proof.
  split; [apply in_slab_points|]. split.
  - unfold analyze_slice.
    destruct (Nat.ltb_spec (length (slab_points all_verts target_z tol)) 10);
      split; intros; congruence || lia.
  - intros r. unfold analyze_slice.
    destruct (Nat.ltb_spec (length (slab_points all_verts target_z tol)) 10);
      [discriminate|]. intros Hr. injection Hr as <-. reflexivity.
Qed.

Lemma slab_points_repeat (x y z tol : R) (k : nat) :
  0 < tol -> slab_points (repeat (mkPoint x y z) k) z tol = repeat (x, y) k.
Proof.
  intros Htol. induction k as [|k IH]; [reflexivity|].
  unfold slab_points in *. simpl.
  rewrite rlt_true by (rewrite Rminus_diag, Rabs_R0; exact Htol).
  simpl. rewrite IH. reflexivity.
Qed.

(** Witness: 9 points in the slab give "insufficient data", 10 give a
    result counting 10 points. *)
Lemma analyze_slice_threshold_witness :
  analyze_slice (repeat (mkPoint 0 0 0) 9) 0 (1/4) = None /\
  exists r, analyze_slice (repeat (mkPoint 0 0 0) 10) 0 (1/4) = Some r /\
            si_verts r = 10%nat.
Proof.
  split.
  - apply (proj2 (proj1 (proj2 (analyze_slice_threshold (repeat (mkPoint 0 0 0) 9) 0 (1/4))))).
    rewrite slab_points_repeat by lra. rewrite repeat_length. lia.
  - assert (H10 : (10 <= length (slab_points (repeat (mkPoint 0 0 0) 10) 0 (1/4)))%nat)
      by (rewrite slab_points_repeat by lra; rewrite repeat_length; lia).
    destruct (proj1 (analyze_slice_some_iff _ _ _) H10) as [r Hr].
    exists r. split; [exact Hr|].
    rewrite (proj2 (proj2 (analyze_slice_threshold _ _ _)) r Hr).
    rewrite slab_points_repeat by lra. apply repeat_length.
Defined.

Lemma sum_list_nonneg (l : list R) : (forall x, In x l -> 0 <= x) -> 0 <= sum_list l.
Proof.
  induction l as [|a l IH]; simpl; intros H; [lra|].
  pose proof (H a (or_introl eq_refl)). pose proof (IH (fun x Hx => H x (or_intror Hx))). lra.
Qed.

(** C7: for a slab with a result, the centre is the midpoint of the
    bounding box of the selected points, the mean radius is the mean
    distance to that centre, the variation is the population standard
    deviation of the distances over the mean (0 for a zero mean), and the
    label follows the 0.1 / 0.25 bands. *)
Theorem analyze_slice_shape (all_verts : list point) (target_z tol : R) (r : slice_info) :
  analyze_slice all_verts target_z tol = Some r ->
  let pts := slab_points all_verts target_z tol in
  let dists := map (euclid (si_center r)) pts in
  (exists lox hix loy hiy,
     is_min (map fst pts) lox /\ is_max (map fst pts) hix /\
     is_min (map snd pts) loy /\ is_max (map snd pts) hiy /\
     si_center r = ((lox + hix) / 2, (loy + hiy) / 2)) /\
  si_avg_radius r = mean dists /\
  (si_avg_radius r = 0 -> si_variation r = 0) /\
  (si_avg_radius r <> 0 -> si_variation r = pop_std dists / si_avg_radius r) /\
  (si_shape r = Circular <-> si_variation r < 1/10) /\
  (si_shape r = RoughlyCircularOval <-> 1/10 <= si_variation r < 1/4) /\
  (si_shape r = Irregular <-> 1/4 <= si_variation r).
Proof.
  intros H pts dists. unfold analyze_slice in H. fold pts in H.
  destruct (Nat.ltb_spec (length pts) 10) as [Hlt|Hge]; [discriminate|].
  assert (Hne : pts <> []) by (intros E; rewrite E in Hge; simpl in Hge; lia).
  assert (Hx : map fst pts <> []) by (destruct pts; [congruence | discriminate]).
  assert (Hy : map snd pts <> []) by (destruct pts; [congruence | discriminate]).
  set (cx := (min_list (map fst pts) + max_list (map fst pts)) / 2) in H.
  set (cy := (min_list (map snd pts) + max_list (map snd pts)) / 2) in H.
  set (ds := map (fun p => sqrt ((fst p - cx) ^ 2 + (snd p - cy) ^ 2)) pts) in H.
  set (avg := sum_list ds / INR (length ds)) in H.
  set (var := if rlt 0 avg
              then sqrt (sum_list (map (fun dd => (dd - avg) ^ 2) ds) / INR (length ds)) / avg
              else 0) in H.
  injection H as <-. subst dists. cbn [si_center si_avg_radius si_variation si_shape].
  assert (Hds : map (euclid (cx, cy)) pts = ds) by reflexivity.
  rewrite Hds.
  assert (Havg : 0 <= avg).
  { unfold avg, Rdiv. apply Rmult_le_pos.
    - apply sum_list_nonneg. intros d Hd. unfold ds in Hd.
      apply in_map_iff in Hd as [p [<- _]]. apply sqrt_pos.
    - apply Rlt_le, Rinv_0_lt_compat, lt_0_INR. unfold ds. rewrite length_map. lia. }
  split.
  { exists (min_list (map fst pts)), (max_list (map fst pts)),
           (min_list (map snd pts)), (max_list (map snd pts)).
    repeat split; try apply min_list_is_min; try apply max_list_is_max; auto;
      apply min_list_is_min || apply max_list_is_max; auto. }
  split; [reflexivity|].
  split.
  { intros H0. unfold var. rewrite H0. rewrite rlt_false by lra. reflexivity. }
  split.
  { intros H0. unfold var.
    assert (Hpos : 0 < avg) by (destruct Havg as [?|E]; [assumption | congruence]).
    rewrite (rlt_true _ _ Hpos).
    unfold pop_std, mean. fold avg. rewrite length_map. reflexivity. }
  unfold shape_of.
  destruct (Rlt_dec var (1/10)) as [H1|H1];
    [rewrite (rlt_true _ _ H1) | rewrite (rlt_false _ _ H1)];
  [|destruct (Rlt_dec var (1/4)) as [H2|H2];
    [rewrite (rlt_true _ _ H2) | rewrite (rlt_false _ _ H2)]];
  repeat split; intros; try discriminate; try reflexivity; lra.
Qed.

Lemma slab_points_flat (vs : list point) (z tol : R) :
  0 < tol -> Forall (fun v => pz v = z) vs ->
  slab_points vs z tol = map (fun v => (px v, py v)) vs.
Proof.
  intros Htol. induction 1 as [|v vs Hv _ IH]; [reflexivity|].
  unfold slab_points in *. cbn [List.filter].
  rewrite rlt_true by (rewrite Hv, Rminus_diag, Rabs_R0; exact Htol).
  cbn [map]. rewrite IH. reflexivity.
Qed.

(** Witness: eight points at the origin, one at (2, 0) and one at (1, 0).
    The centre is the box midpoint (1, 0), not the centroid (3/10, 0);
    the distances 1 (nine times) and 0 have mean 9/10 and population
    standard deviation 3/10, so the variation is 1/3: irregular. *)
Lemma analyze_slice_shape_witness :
  let vs := repeat (mkPoint 0 0 0) 8 ++ [mkPoint 2 0 0; mkPoint 1 0 0] in
  exists r, analyze_slice vs 0 (1/4) = Some r /\
    si_center r = (1, 0) /\ si_avg_radius r = 9/10 /\
    si_variation r = 1/3 /\ si_shape r = Irregular.
Proof.
  intros vs.
  set (P := repeat (0, 0) 8 ++ [(2, 0); (1, 0)]).
  assert (Hp : slab_points vs 0 (1/4) = P).
  { rewrite slab_points_flat; [reflexivity|lra|].
    unfold vs. repeat apply List.Forall_cons; try reflexivity. apply List.Forall_nil. }
  assert (H10 : (10 <= length (slab_points vs 0 (1/4)))%nat) by (rewrite Hp; simpl; lia).
  destruct (proj1 (analyze_slice_some_iff _ _ _) H10) as [r Hr].
  exists r. split; [exact Hr|].
  pose proof (analyze_slice_shape vs 0 (1/4) r Hr) as Hs. cbv zeta in Hs.
  rewrite Hp in Hs.
  destruct Hs as ((lox & hix & loy & hiy & [Ix Mx] & [Jx Nx] & [Iy My] & [Jy Ny] & Hc) &
                  Havg & _ & Hvar & _ & _ & Hirr).
  assert (Hxs : map fst P = [0; 0; 0; 0; 0; 0; 0; 0; 2; 1]) by reflexivity.
  assert (Hys : map snd P = [0; 0; 0; 0; 0; 0; 0; 0; 0; 0]) by reflexivity.
  rewrite Hxs in Ix, Mx, Jx, Nx. rewrite Hys in Iy, My, Jy, Ny.
  assert (E1 : lox = 0).
  { specialize (Mx 0 (or_introl eq_refl)). simpl in Ix.
    repeat destruct Ix as [<-|Ix]; try lra; destruct Ix. }
  assert (E2 : hix = 2).
  { specialize (Nx 2 ltac:(simpl; tauto)). simpl in Jx.
    repeat destruct Jx as [<-|Jx]; try lra; destruct Jx. }
  assert (E3 : loy = 0) by (simpl in Iy; repeat destruct Iy as [<-|Iy]; try reflexivity; destruct Iy).
  assert (E4 : hiy = 0) by (simpl in Jy; repeat destruct Jy as [<-|Jy]; try reflexivity; destruct Jy).
  assert (Hcen : si_center r = (1, 0)).
  { rewrite Hc, E1, E2, E3, E4. f_equal; lra. }
  rewrite Hcen in Havg, Hvar.
  assert (Hd : map (euclid (1, 0)) P = [1; 1; 1; 1; 1; 1; 1; 1; 1; 0]).
  { assert (A : euclid (1, 0) (0, 0) = 1).
    { unfold euclid. cbn [fst snd]. replace ((0 - 1) ^ 2 + (0 - 0) ^ 2) with 1 by ring.
      apply sqrt_1. }
    assert (B : euclid (1, 0) (2, 0) = 1).
    { unfold euclid. cbn [fst snd]. replace ((2 - 1) ^ 2 + (0 - 0) ^ 2) with 1 by ring.
      apply sqrt_1. }
    assert (C : euclid (1, 0) (1, 0) = 0).
    { unfold euclid. cbn [fst snd]. replace ((1 - 1) ^ 2 + (0 - 0) ^ 2) with 0 by ring.
      apply sqrt_0. }
    unfold P. cbn [repeat app map]. rewrite A, B, C. reflexivity. }
  rewrite Hd in Havg, Hvar.
  assert (Hm : mean [1; 1; 1; 1; 1; 1; 1; 1; 1; 0] = 9/10).
  { unfold mean, sum_list. simpl. field. }
  rewrite Hm in Havg.
  assert (Hsd : pop_std [1; 1; 1; 1; 1; 1; 1; 1; 1; 0] = 3/10).
  { unfold pop_std. rewrite Hm.
    replace (mean (map (fun d => (d - 9/10) ^ 2) [1; 1; 1; 1; 1; 1; 1; 1; 1; 0]))
      with ((3/10) ^ 2) by (unfold mean, sum_list; simpl; field).
    apply sqrt_pow2. lra. }
  rewrite Hsd in Hvar.
  assert (Hv : si_variation r = 1/3) by (rewrite (Hvar ltac:(rewrite Havg; lra)), Havg; field).
  split; [exact Hcen|]. split; [exact Havg|]. split; [exact Hv|].
  apply Hirr. rewrite Hv. lra.
Defined.

(** ** Pocket detection *)

Section Pockets.

Lemma in_zrange (lo hi x : Z) : In x (zrange lo hi) <-> (lo <= x <= hi)%Z.
Proof.
  unfold zrange. rewrite in_map_iff. split.
  - intros [i [<- Hi]]. apply in_seq in Hi. lia.
  - intros H. exists (Z.to_nat (x - lo)). split; [lia|]. apply in_seq. lia.
Qed.

Lemma fold_Zmin_spec (t : list Z) (x : Z) :
  In (fold_left Z.min t x) (x :: t) /\
  forall y, In y (x :: t) -> (fold_left Z.min t x <= y)%Z.
Proof.
  revert x; induction t as [|a t IH]; intros x; simpl.
  - split; [auto | intros y [<-|[]]; lia].
  - destruct (IH (Z.min x a)) as [Hin Hle]. split.
    + destruct Hin as [Hm|Hm]; [|auto].
      rewrite <- Hm. destruct (Z.min_spec x a) as [[_ ->]|[_ ->]]; auto.
    + specialize (Hle (Z.min x a) (or_introl eq_refl)) as Hxa.
      intros y [<-|[<-|Hy]]; [lia | lia | apply Hle; right; exact Hy].
Qed.

Lemma fold_Zmax_spec (t : list Z) (x : Z) :
  In (fold_left Z.max t x) (x :: t) /\
  forall y, In y (x :: t) -> (y <= fold_left Z.max t x)%Z.
Proof.
  revert x; induction t as [|a t IH]; intros x; simpl.
  - split; [auto | intros y [<-|[]]; lia].
  - destruct (IH (Z.max x a)) as [Hin Hle]. split.
    + destruct Hin as [Hm|Hm]; [|auto].
      rewrite <- Hm. destruct (Z.max_spec x a) as [[_ ->]|[_ ->]]; auto.
    + specialize (Hle (Z.max x a) (or_introl eq_refl)) as Hxa.
      intros y [<-|[<-|Hy]]; [lia | lia | apply Hle; right; exact Hy].
Qed.

Lemma zmin_list_le (l : list Z) (x : Z) :
  l <> [] -> ((zmin_list l <= x)%Z <-> exists y, In y l /\ (y <= x)%Z).
Proof.
  destruct l as [|a t]; [congruence|]. intros _. simpl.
  destruct (fold_Zmin_spec t a) as [Hin Hle]. split.
  - intros H. exists (fold_left Z.min t a). auto.
  - intros [y [Hy Hyx]]. specialize (Hle y Hy). lia.
Qed.

Lemma zmax_list_ge (l : list Z) (x : Z) :
  l <> [] -> ((x <= zmax_list l)%Z <-> exists y, In y l /\ (x <= y)%Z).
Proof.
  destruct l as [|a t]; [congruence|]. intros _. simpl.
  destruct (fold_Zmax_spec t a) as [Hin Hle]. split.
  - intros H. exists (fold_left Z.max t a). auto.
  - intros [y [Hy Hyx]]. specialize (Hle y Hy). lia.
Qed.

Lemma in_grid_keys (g : gmap cell nat) (k : cell) :
  In k (grid_keys g) <-> exists n, g !! k = Some n.
Proof.
  unfold grid_keys. rewrite in_map_iff. split.
  - intros [[k' n] [Hk Hin]]. simpl in Hk. subst k'. exists n.
    apply elem_of_map_to_list. apply list_elem_of_In. exact Hin.
  - intros [n Hn]. exists (k, n). split; [reflexivity|].
    apply list_elem_of_In. apply elem_of_map_to_list. exact Hn.
Qed.

Lemma exists_key_fst (g : gmap cell nat) (P : Z -> Prop) :
  (exists y, In y (map fst (grid_keys g)) /\ P y) <->
  (exists k n, g !! k = Some n /\ P k.1).
Proof.
  split.
  - intros [y [Hy HP]]. apply in_map_iff in Hy as [k [<- Hk]].
    apply in_grid_keys in Hk as [n Hn]. eauto.
  - intros [k [n [Hn HP]]]. exists k.1. split; [|exact HP].
    apply in_map_iff. exists k. split; [reflexivity|]. apply in_grid_keys. eauto.
Qed.

Lemma exists_key_snd (g : gmap cell nat) (P : Z -> Prop) :
  (exists y, In y (map snd (grid_keys g)) /\ P y) <->
  (exists k n, g !! k = Some n /\ P k.2).
Proof.
  split.
  - intros [y [Hy HP]]. apply in_map_iff in Hy as [k [<- Hk]].
    apply in_grid_keys in Hk as [n Hn]. eauto.
  - intros [k [n [Hn HP]]]. exists k.2. split; [|exact HP].
    apply in_map_iff. exists k. split; [reflexivity|]. apply in_grid_keys. eauto.
Qed.

Lemma dense_grid_get (g : gmap cell nat) (k : cell) : dense g k = (3 <=? grid_get g k)%nat.
Proof. unfold dense, grid_get. destruct (g !! k); reflexivity. Qed.

Lemma sparse_grid_get (g : gmap cell nat) (k : cell) : sparse g k = (grid_get g k <? 3)%nat.
Proof. unfold sparse, grid_get. destruct (g !! k); reflexivity. Qed.

(** With the centre sparse, the 9 offsets of the code count exactly the
    dense cells among the 8 neighbours. *)
Lemma neighbors_sparse (g : gmap cell nat) (gx gy : Z) :
  (grid_get g (gx, gy) < 3)%nat ->
  neighbors g gx gy =
  length (List.filter (fun d => 3 <=? grid_get g ((gx + d.1)%Z, (gy + d.2)%Z))%nat neighbors8).
Proof.
  intros Hc. unfold neighbors.
  rewrite (List.filter_ext _ (fun d => 3 <=? grid_get g ((gx + d.1)%Z, (gy + d.2)%Z))%nat)
    by (intros d; apply dense_grid_get).
  set (l1 := [((-1)%Z, (-1)%Z); ((-1)%Z, 0%Z); ((-1)%Z, 1%Z); (0%Z, (-1)%Z)]).
  set (l2 := [(0%Z, 1%Z); (1%Z, (-1)%Z); (1%Z, 0%Z); (1%Z, 1%Z)]).
  assert (Hoff : offsets = l1 ++ (0%Z, 0%Z) :: l2) by reflexivity.
  assert (H8 : neighbors8 = l1 ++ l2) by reflexivity.
  rewrite Hoff, H8. rewrite !List.filter_app, !length_app.
  cbn [List.filter fst snd]. rewrite !Z.add_0_r.
  destruct (Nat.leb_spec 3 (grid_get g (gx, gy))); [lia | reflexivity].
Qed.

Lemma grid_keys_nil (g : gmap cell nat) : grid_keys g = [] -> forall k, g !! k = None.
Proof.
  intros H k. destruct (g !! k) as [n|] eqn:E; [|reflexivity].
  exfalso. assert (Hin : In k (grid_keys g)) by (apply in_grid_keys; eauto).
  rewrite H in Hin. exact Hin.
Qed.

Lemma in_cell_loops (xs ys : list Z) (P : Z -> Z -> bool) (c : cell) :
  In c (flat_map (fun gx => flat_map (fun gy => if P gx gy then [(gx, gy)] else []) ys) xs)
  <-> In c.1 xs /\ In c.2 ys /\ P c.1 c.2 = true.
Proof.
  destruct c as [cx cy]. simpl. rewrite in_flat_map. split.
  - intros [gx [Hx Hin]]. apply in_flat_map in Hin as [gy [Hy Hin]].
    destruct (P gx gy) eqn:E; [|destruct Hin].
    destruct Hin as [Heq|[]]. injection Heq as -> ->. auto.
  - intros (Hx & Hy & HP). exists cx. split; [exact Hx|].
    apply in_flat_map. exists cy. split; [exact Hy|]. rewrite HP. left. reflexivity.
Qed.

End Pockets.

(** C2: a cell is an empty-interior candidate exactly when it lies in the
    rectangle spanned by the occupied cells, its own hit count (0 when
    absent) is below 3, and at least 4 of its 8 neighbours have a hit
    count of at least 3. *)
Theorem empty_interior_iff (g : gmap cell nat) (c : cell) :
  In c (empty_interior g) <->
  in_occupied_span g c /\ (grid_get g c < 3)%nat /\
  (4 <= length (List.filter
          (fun d => 3 <=? grid_get g ((c.1 + d.1)%Z, (c.2 + d.2)%Z))%nat neighbors8))%nat.
Proof.
  unfold empty_interior. rewrite in_cell_loops, !in_zrange.
  destruct c as [gx gy]. cbn [fst snd].
  rewrite andb_true_iff, sparse_grid_get, Nat.ltb_lt, Nat.leb_le.
  destruct (grid_keys g) as [|k0 ks] eqn:Hk.
  - (* empty grid: no cell is dense, no cell is occupied *)
    pose proof (grid_keys_nil g Hk) as Hnone.
    assert (Hg : forall k, grid_get g k = 0%nat) by (intros k; unfold grid_get; rewrite Hnone; reflexivity).
    split.
    + intros (_ & _ & _ & Hn). rewrite neighbors_sparse in Hn by (rewrite Hg; lia).
      simpl in Hn. rewrite !Hg in Hn. simpl in Hn. lia.
    + intros [[[k [n [Hkn _]]] _] _]. rewrite Hnone in Hkn. discriminate.
  - rewrite <- Hk.
    assert (Hx : map fst (grid_keys g) <> []) by (rewrite Hk; discriminate).
    assert (Hy : map snd (grid_keys g) <> []) by (rewrite Hk; discriminate).
    unfold in_occupied_span. cbn [fst snd].
    rewrite <- (exists_key_fst g (fun y => (y <= gx)%Z)).
    rewrite <- (exists_key_fst g (fun y => (gx <= y)%Z)).
    rewrite <- (exists_key_snd g (fun y => (y <= gy)%Z)).
    rewrite <- (exists_key_snd g (fun y => (gy <= y)%Z)).
    rewrite <- !zmin_list_le, <- !zmax_list_ge by assumption.
    split.
    + intros ([H1 H2] & [H3 H4] & H5 & H6).
      rewrite neighbors_sparse in H6 by exact H5. tauto.
    + intros ((H1 & H2 & H3 & H4) & H5 & H6).
      rewrite <- neighbors_sparse in H6 by exact H5. tauto.
Qed.

(** ** ASCII cross-sections *)

(** C10: at an ASCII-rendering height the block of the report is empty
    exactly when fewer than 10 vertices lie within the adaptive tolerance
    [max(0.25, 3% of the height range)] of the target height. *)
Theorem ascii_block_omitted (all_verts : list point) (w h z_range z_target : R) :
  ascii_block all_verts w h z_range z_target = [] <->
  (length (slab_points all_verts z_target (Rmax (1/4) (z_range * (3/100)))) < 10)%nat.
Proof.
  unfold ascii_block.
  destruct (Nat.ltb_spec (length (slab_points all_verts z_target (Rmax (1/4) (z_range * (3/100))))) 10)
    as [Hlt|Hge].
  - split; [intros _; exact Hlt | reflexivity].
  - split; [|lia].
    destruct (slab_points all_verts z_target (Rmax (1/4) (z_range * (3/100)))) as [|p ps].
    + simpl in Hge. lia.
    + unfold ascii_cross_section. discriminate.
Qed.

(* ================================================================== *)
(** * Further properties of the script *)

(** ** Binary loader on well-formed files *)

Section BinaryWellFormed.

Lemma read_records_concat (n : nat) (rs : list (list Byte.byte)) (rest : list Byte.byte) :
  Forall (fun r => length r = 50%nat) rs ->
  (n <= length rs \/ length rest < 50)%nat ->
  read_records n (concat rs ++ rest) = map parse_record (firstn n rs).
Proof.
  revert n; induction rs as [|r rs IH]; intros n Hall Hn; simpl.
  - destruct n as [|n']; [reflexivity|]. simpl in Hn.
    destruct Hn as [Hn|Hn]; [lia|]. simpl.
    rewrite length_firstn.
    destruct (Nat.ltb_spec (Nat.min 50 (length rest)) 50); [reflexivity | lia].
  - inversion Hall as [|? ? Hr Hrs]; subst.
    destruct n as [|n']; [reflexivity|]. simpl.
    rewrite <- app_assoc.
    rewrite firstn_app, Hr, Nat.sub_diag, firstn_O, app_nil_r, firstn_all2 by lia.
    rewrite skipn_app, Hr, Nat.sub_diag, skipn_O, skipn_all2 by lia.
    simpl. rewrite IH by (simpl in Hn; auto; lia). reflexivity.
Qed.

End BinaryWellFormed.

(** A binary file made of an 80-byte header, a 4-byte count [n], whole
    50-byte records and a tail yields the header and the first [n]
    records, provided the records do not run out before the count does or
    the tail is shorter than a record. *)
Theorem read_binary_stl_well_formed (header cnt : list Byte.byte)
    (rs : list (list Byte.byte)) (rest : list Byte.byte) :
  length header = 80%nat -> length cnt = 4%nat ->
  Forall (fun r => length r = 50%nat) rs ->
  (Z.to_nat (le_uint cnt) <= length rs \/ length rest < 50)%nat ->
  read_binary_stl (header ++ cnt ++ concat rs ++ rest) =
    ret (header, map parse_record (firstn (Z.to_nat (le_uint cnt)) rs)).
Proof.
  intros Hh Hc Hall Hn.
  assert (Ef : forall (x y : list Byte.byte) n, length x = n -> firstn n (x ++ y) = x).
  { intros x y n <-. rewrite firstn_app, Nat.sub_diag, firstn_O, app_nil_r.
    apply firstn_all. }
  assert (Es : forall (x y : list Byte.byte) n, length x = n -> skipn n (x ++ y) = y).
  { intros x y n <-. rewrite skipn_app, Nat.sub_diag, skipn_O, skipn_all. reflexivity. }
  unfold read_binary_stl.
  rewrite (Ef header _ 80%nat Hh), (Es header _ 80%nat Hh), (Ef cnt _ 4%nat Hc), Hc.
  replace 84%nat with (4 + 80)%nat by reflexivity.
  rewrite <- skipn_skipn, (Es header _ 80%nat Hh), (Es cnt _ 4%nat Hc). simpl.
  rewrite read_records_concat by assumption. reflexivity.
Qed.

Lemma read_binary_stl_well_formed_witness :
  let rs := [repeat Byte.x00 50; repeat Byte.x00 50] in
  length (repeat Byte.x00 80) = 80%nat /\
  length [Byte.x02; Byte.x00; Byte.x00; Byte.x00] = 4%nat /\
  Forall (fun r => length r = 50%nat) rs /\
  (Z.to_nat (le_uint [Byte.x02; Byte.x00; Byte.x00; Byte.x00]) <= length rs \/
   length [Byte.x01] < 50)%nat /\
  read_binary_stl (repeat Byte.x00 80 ++ [Byte.x02; Byte.x00; Byte.x00; Byte.x00]
                   ++ concat rs ++ [Byte.x01]) =
    ret (repeat Byte.x00 80, map parse_record (firstn 2 rs)).
Proof.
  intros rs.
  assert (H1 : length (repeat Byte.x00 80) = 80%nat) by reflexivity.
  assert (H2 : length [Byte.x02; Byte.x00; Byte.x00; Byte.x00] = 4%nat) by reflexivity.
  assert (H3 : Forall (fun r => length r = 50%nat) rs)
    by (repeat constructor).
  assert (H4 : (Z.to_nat (le_uint [Byte.x02; Byte.x00; Byte.x00; Byte.x00]) <= length rs \/
                length [Byte.x01] < 50)%nat) by (left; simpl; lia).
  split; [exact H1|]. split; [exact H2|]. split; [exact H3|]. split; [exact H4|].
  exact (read_binary_stl_well_formed _ _ rs [Byte.x01] H1 H2 H3 H4).
Defined.

(** ** Format detection: the 80-byte window *)

Section Detection.

Lemma lstrip_spaces (ws l : list Byte.byte) :
  Forall (fun b => byte_is_space b = true) ws -> lstrip (ws ++ l) = lstrip l.
Proof. induction 1 as [|b ws Hb _ IH]; simpl; [reflexivity | rewrite Hb; exact IH]. Qed.

Lemma lstrip_length (l : list Byte.byte) : (length (lstrip l) <= length l)%nat.
Proof. induction l as [|b l IH]; simpl; [lia|]. destruct (byte_is_space b); simpl; lia. Qed.

Lemma firstn_spaces (ws : list Byte.byte) (n : nat) :
  Forall (fun b => byte_is_space b = true) ws ->
  Forall (fun b => byte_is_space b = true) (firstn n ws).
Proof.
  intros H. revert n; induction H as [|b ws Hb _ IH]; intros [|n]; simpl; auto.
Qed.

End Detection.

(** The marker must begin within the first 80 bytes: after 76 or more
    whitespace bytes a file is binary whatever follows, while after at
    most 75 whitespace bytes a [solid] followed by bytes without a null
    in the window is text. *)
Theorem is_ascii_stl_window (ws rest : list Byte.byte) :
  Forall (fun b => byte_is_space b = true) ws ->
  ((76 <= length ws)%nat -> is_ascii_stl (ws ++ rest) = false) /\
  ((length ws <= 75)%nat -> ~ In null_byte rest ->
   is_ascii_stl (ws ++ bytes_of "solid" ++ rest) = true).
Proof.
  intros Hws. split.
  - intros Hlen. unfold is_ascii_stl. rewrite firstn_app.
    rewrite lstrip_spaces by (apply firstn_spaces; exact Hws).
    destruct (starts_with (bytes_of "solid") _) eqn:E; [|reflexivity].
    exfalso. apply starts_with_iff in E as [r Hr].
    pose proof (lstrip_length (firstn (80 - length ws) rest)) as Hl.
    rewrite Hr, length_app, length_firstn in Hl. simpl in Hl. lia.
  - intros Hlen Hnull. unfold is_ascii_stl.
    rewrite firstn_app, firstn_all2 by lia.
    rewrite lstrip_spaces by exact Hws.
    replace (80 - length ws)%nat with (S (S (S (S (S (75 - length ws))))))%nat by lia.
    simpl. rewrite negb_true_iff.
    apply not_true_iff_false. rewrite existsb_null_iff.
    intros H. apply Hnull. rewrite <- (firstn_skipn (75 - length ws) rest).
    apply in_or_app. left. exact H.
Qed.

Lemma is_ascii_stl_window_witness :
  Forall (fun b => byte_is_space b = true) (repeat Byte.x20 76) /\
  (76 <= length (repeat Byte.x20 76))%nat /\
  is_ascii_stl (repeat Byte.x20 76 ++ bytes_of "solid x") = false.
Proof.
  assert (H1 : Forall (fun b => byte_is_space b = true) (repeat Byte.x20 76))
    by (simpl; repeat constructor).
  assert (H2 : (76 <= length (repeat Byte.x20 76))%nat) by (rewrite repeat_length; lia).
  split; [exact H1|]. split; [exact H2|].
  exact (proj1 (is_ascii_stl_window _ _ H1) H2).
Defined.

(** ** ASCII loader *)

Section AsciiLoader.

Lemma ascii_loop_no_normal (lines : list string) (verts : list point) (acc tris : list tri) :
  Forall (fun l => String.prefix "facet normal" (strip l) = false) lines ->
  ascii_loop lines None verts acc = ret tris -> tris = rev acc.
Proof.
  intros Hall. revert verts acc.
  induction Hall as [|l lines Hl _ IH]; intros verts acc H; simpl in H.
  - injection H as <-. reflexivity.
  - rewrite Hl in H.
    destruct (String.prefix "vertex" (strip l)).
    + unfold bind in H.
      destruct (float_part (split (strip l)) 1); [discriminate|].
      destruct (float_part (split (strip l)) 2); [discriminate|].
      destruct (float_part (split (strip l)) 3); [discriminate|].
      exact (IH _ _ H).
    + destruct (String.prefix "endfacet" (strip l)); exact (IH _ _ H).
Qed.

Lemma ascii_loop_count (lines : list string) (nrm : option point)
    (verts : list point) (acc tris : list tri) :
  ascii_loop lines nrm verts acc = ret tris ->
  (length tris <= length acc + count_prefixed "endfacet" lines)%nat.
Proof.
  unfold count_prefixed.
  revert nrm verts acc; induction lines as [|l lines IH]; intros nrm verts acc H; simpl in H.
  - injection H as <-. rewrite length_rev. simpl. lia.
  - simpl.
    destruct (String.prefix "facet normal" (strip l)).
    + unfold bind in H.
      destruct (float_part (split (strip l)) 2); [discriminate|].
      destruct (float_part (split (strip l)) 3); [discriminate|].
      destruct (float_part (split (strip l)) 4); [discriminate|].
      specialize (IH _ _ _ H). destruct (String.prefix "endfacet" (strip l)); simpl; lia.
    + destruct (String.prefix "vertex" (strip l)).
      * unfold bind in H.
        destruct (float_part (split (strip l)) 1); [discriminate|].
        destruct (float_part (split (strip l)) 2); [discriminate|].
        destruct (float_part (split (strip l)) 3); [discriminate|].
        specialize (IH _ _ _ H). destruct (String.prefix "endfacet" (strip l)); simpl; lia.
      * destruct (String.prefix "endfacet" (strip l)) eqn:E.
        -- destruct nrm as [n|];
             [destruct verts as [|a [|b [|c [|d vs]]]]|];
             specialize (IH _ _ _ H); simpl in IH |- *; lia.
        -- destruct nrm as [n|];
             [destruct verts as [|a [|b [|c [|d vs]]]]|];
             specialize (IH _ _ _ H); simpl in IH |- *; lia.
Qed.

End AsciiLoader.

(** A text file none of whose lines starts (after stripping) with
    [facet normal] loads with no triangle: vertices and [endfacet] lines
    without a preceding normal are dropped. *)
Theorem read_ascii_stl_no_facet_normal (file : list Byte.byte) (text : list ascii)
    (header : list Byte.byte) (tris : list tri) :
  decode_text file = ret text ->
  Forall (fun l => String.prefix "facet normal" (strip l) = false) (readlines text) ->
  read_ascii_stl file = ret (header, tris) -> tris = [].
Proof.
  intros Hd Hall H. unfold read_ascii_stl in H. rewrite Hd in H. simpl in H.
  destruct (ascii_loop (readlines text) None [] []) as [e|ts] eqn:E; [discriminate|].
  injection H as _ <-. exact (ascii_loop_no_normal _ _ _ _ Hall E).
Qed.

(** Witness: three vertex lines and an endfacet line with no
    [facet normal] before them give no triangle. *)
Lemma read_ascii_stl_no_facet_normal_witness :
  let file := bytes_of "solid x
vertex 1 2 3
vertex 4 5 6
vertex 7 8 9
endfacet
endsolid x
" in
  exists text, decode_text file = ret text /\
  count_prefixed "vertex" (readlines text) = 3%nat /\
  count_prefixed "endfacet" (readlines text) = 1%nat /\
  Forall (fun l => String.prefix "facet normal" (strip l) = false) (readlines text) /\
  read_ascii_stl file = ret (bytes_of "solid x", []).
Proof.
  intros file. exists (map ascii_of_byte file).
  assert (H1 : decode_text file = ret (map ascii_of_byte file)) by reflexivity.
  assert (H2 : Forall (fun l => String.prefix "facet normal" (strip l) = false)
                 (readlines (map ascii_of_byte file))).
  { assert (B : forallb (fun l => negb (String.prefix "facet normal" (strip l)))
                  (readlines (map ascii_of_byte file)) = true) by (vm_compute; reflexivity).
    apply List.Forall_forall. intros l Hl. rewrite forallb_forall in B. specialize (B l Hl).
    destruct (String.prefix "facet normal" (strip l)); [discriminate|reflexivity]. }
  split; [exact H1|]. split; [vm_compute; reflexivity|]. split; [vm_compute; reflexivity|].
  split; [exact H2|].
  destruct (read_ascii_stl file) as [e|[h ts]] eqn:E; [vm_compute in E; discriminate|].
  pose proof (read_ascii_stl_no_facet_normal _ _ _ _ H1 H2 E) as ->.
  revert E. vm_compute. intros E. injection E as <-. reflexivity.
Defined.

(** The text loader yields at most one triangle per [endfacet] line. *)
Theorem read_ascii_stl_count (file : list Byte.byte) (text : list ascii)
    (header : list Byte.byte) (tris : list tri) :
  decode_text file = ret text ->
  read_ascii_stl file = ret (header, tris) ->
  (length tris <= count_prefixed "endfacet" (readlines text))%nat.
Proof.
  intros Hd H. unfold read_ascii_stl in H. rewrite Hd in H. simpl in H.
  destruct (ascii_loop (readlines text) None [] []) as [e|ts] eqn:E; [discriminate|].
  injection H as _ <-. exact (ascii_loop_count _ _ _ _ _ E).
Qed.

(** Witness: a complete facet closed by two [endfacet] lines gives two
    triangles, reaching the bound. *)
Lemma read_ascii_stl_count_witness :
  let file := bytes_of "solid x
facet normal 0 0 1
outer loop
vertex 0 0 0
vertex 1 0 0
vertex 0 1 0
endloop
endfacet
endfacet
endsolid x
" in
  exists text header tris,
  decode_text file = ret text /\ read_ascii_stl file = ret (header, tris) /\
  length tris = 2%nat /\ count_prefixed "endfacet" (readlines text) = 2%nat /\
  (length tris <= count_prefixed "endfacet" (readlines text))%nat.
Proof.
  intros file.
  assert (H1 : decode_text file = ret (map ascii_of_byte file)) by reflexivity.
  destruct (read_ascii_stl file) as [e|[h ts]] eqn:E; [vm_compute in E; discriminate|].
  assert (Hl : length ts = 2%nat)
    by (pose proof E as E'; vm_compute in E'; injection E' as _ <-; reflexivity).
  exists (map ascii_of_byte file), h, ts.
  split; [exact H1|]. split; [reflexivity|]. split; [exact Hl|].
  split; [vm_compute; reflexivity|].
  exact (read_ascii_stl_count _ _ _ _ H1 E).
Defined.

Lemma endfacet_not_other (s : string) :
  String.prefix "endfacet" s = true ->
  String.prefix "facet normal" s = false /\ String.prefix "vertex" s = false.
Proof.
  destruct s as [|c s]; [discriminate|].
  unfold String.prefix; fold String.prefix.
  destruct (Ascii.ascii_dec "e"%char c) as [E|_]; [subst c; split; reflexivity|discriminate].
Qed.

(** After a complete facet, every further [endfacet] line appends the
    same triangle again: [verts] is only reset by the next
    [facet normal] line. *)
Theorem ascii_loop_endfacet_repeat (ls rest : list string) (n a b c : point)
    (acc : list tri) :
  Forall (fun l => String.prefix "endfacet" (strip l) = true) ls ->
  ascii_loop (ls ++ rest) (Some n) [a; b; c] acc =
  ascii_loop rest (Some n) [a; b; c] (repeat (mkTri n a b c) (length ls) ++ acc).
Proof.
  intros Hall. revert acc.
  induction Hall as [|l ls Hl _ IH]; intros acc; [reflexivity|].
  simpl. destruct (endfacet_not_other _ Hl) as [E1 E2].
  rewrite E1, E2, Hl, IH.
  f_equal. generalize (length ls) as k.
  induction k as [|k IHk]; [reflexivity|]. simpl. now rewrite IHk.
Qed.

Lemma ascii_loop_endfacet_repeat_witness :
  Forall (fun l => String.prefix "endfacet" (strip l) = true)
    ["endfacet"; "  endfacet  "]%string /\
  ascii_loop (["endfacet"; "  endfacet  "]%string ++ [])
    (Some (mkPoint 0 0 1)) [mkPoint 0 0 0; mkPoint 1 0 0; mkPoint 0 1 0] [] =
  ascii_loop [] (Some (mkPoint 0 0 1)) [mkPoint 0 0 0; mkPoint 1 0 0; mkPoint 0 1 0]
    (repeat (mkTri (mkPoint 0 0 1) (mkPoint 0 0 0) (mkPoint 1 0 0) (mkPoint 0 1 0)) 2 ++ []).
Proof.
  assert (H : Forall (fun l => String.prefix "endfacet" (strip l) = true)
                ["endfacet"; "  endfacet  "]%string) by (repeat constructor).
  split; [exact H|]. exact (ascii_loop_endfacet_repeat _ [] _ _ _ _ [] H).
Defined.

(** A [facet normal] line with fewer than five fields, or a [vertex]
    line with fewer than four, makes the whole load fail (the exception
    is not caught); with too few fields for even the first coordinate the
    failure is [IndexError]. *)
Theorem ascii_loop_short_line (l : string) (rest : list string) (nrm : option point)
    (verts : list point) (acc : list tri) :
  let parts := split (strip l) in
  (String.prefix "facet normal" (strip l) = true ->
     (length parts <= 4)%nat ->
     (exists e, ascii_loop (l :: rest) nrm verts acc = raise e) /\
     ((length parts <= 2)%nat -> ascii_loop (l :: rest) nrm verts acc = raise IndexError)) /\
  (String.prefix "facet normal" (strip l) = false ->
   String.prefix "vertex" (strip l) = true ->
     (length parts <= 3)%nat ->
     (exists e, ascii_loop (l :: rest) nrm verts acc = raise e) /\
     ((length parts <= 1)%nat -> ascii_loop (l :: rest) nrm verts acc = raise IndexError)).
Proof.
  intros parts. unfold float_part. split.
  - intros Hf Hlen. simpl. rewrite Hf. fold parts. unfold bind, float_part.
    assert (N4 : nth_error parts 4 = None) by (apply nth_error_None; lia).
    split.
    + destruct (nth_error parts 2) as [s2|]; [|eexists; reflexivity].
      destruct (py_float s2); [eexists; reflexivity|].
      destruct (nth_error parts 3) as [s3|]; [|eexists; reflexivity].
      destruct (py_float s3); [eexists; reflexivity|].
      rewrite N4. eexists; reflexivity.
    + intros H2. assert (N2 : nth_error parts 2 = None) by (apply nth_error_None; lia).
      rewrite N2. reflexivity.
  - intros Hf Hv Hlen. simpl. rewrite Hf, Hv. fold parts. unfold bind, float_part.
    assert (N3 : nth_error parts 3 = None) by (apply nth_error_None; lia).
    split.
    + destruct (nth_error parts 1) as [s1|]; [|eexists; reflexivity].
      destruct (py_float s1); [eexists; reflexivity|].
      destruct (nth_error parts 2) as [s2|]; [|eexists; reflexivity].
      destruct (py_float s2); [eexists; reflexivity|].
      rewrite N3. eexists; reflexivity.
    + intros H1. assert (N1 : nth_error parts 1 = None) by (apply nth_error_None; lia).
      rewrite N1. reflexivity.
Qed.

Lemma ascii_loop_short_line_witness :
  String.prefix "facet normal" (strip "facet normal") = true /\
  (length (split (strip "facet normal")) <= 2)%nat /\
  ascii_loop ["facet normal"%string] None [] [] = raise IndexError.
Proof.
  assert (H1 : String.prefix "facet normal" (strip "facet normal") = true) by reflexivity.
  assert (H2 : (length (split (strip "facet normal")) <= 2)%nat)
    by (apply Nat.leb_le; vm_compute; reflexivity).
  assert (H4 : (length (split (strip "facet normal")) <= 4)%nat) by lia.
  split; [exact H1|]. split; [exact H2|].
  exact (proj2 (proj1 (ascii_loop_short_line "facet normal" [] None [] []) H1 H4) H2).
Defined.

(** ** Report *)

(** The bounding box line of the report gives, on each axis, the least
    and the greatest coordinate of the vertices. *)
Theorem report_bbox (fmt : stl_format) (ts : list tri) :
  ts <> [] ->
  let all_verts := flat_map (fun t => [v1 t; v2 t; v3 t]) ts in
  exists mnx mxx mny mxy mnz mxz,
    nth_error (report fmt ts) 2 = Some (LBBox mnx mxx mny mxy mnz mxz) /\
    is_min (map px all_verts) mnx /\ is_max (map px all_verts) mxx /\
    is_min (map py all_verts) mny /\ is_max (map py all_verts) mxy /\
    is_min (map pz all_verts) mnz /\ is_max (map pz all_verts) mxz.
Proof.
  intros Hts all_verts.
  assert (Hv : all_verts <> []).
  { unfold all_verts. destruct ts as [|t ts]; [congruence|]. simpl. discriminate. }
  assert (Hm : forall f : point -> R, map f all_verts <> []).
  { intros f E. apply Hv. destruct all_verts; [reflexivity|discriminate]. }
  do 6 eexists. split; [reflexivity|].
  repeat split;
    first [apply (min_list_is_min _ (Hm _)) | apply (max_list_is_max _ (Hm _))].
Qed.

Lemma report_bbox_witness :
  let ts := [mkTri (mkPoint 0 0 1) (mkPoint 0 0 0) (mkPoint 1 0 0) (mkPoint 0 1 0)] in
  ts <> [] /\
  let all_verts := flat_map (fun t => [v1 t; v2 t; v3 t]) ts in
  exists mnx mxx mny mxy mnz mxz,
    nth_error (report Binary ts) 2 = Some (LBBox mnx mxx mny mxy mnz mxz) /\
    is_min (map px all_verts) mnx /\ is_max (map px all_verts) mxx /\
    is_min (map py all_verts) mny /\ is_max (map py all_verts) mxy /\
    is_min (map pz all_verts) mnz /\ is_max (map pz all_verts) mxz.
Proof.
  intros ts. assert (H : ts <> []) by discriminate.
  split; [exact H|]. exact (report_bbox Binary ts H).
Defined.

Section SortedSet.

Lemma insert_level_in (z x : R) (l : list R) :
  In x (insert_level z l) <-> x = z \/ In x l.
Proof.
  induction l as [|a t IH]; simpl; [intuition congruence|].
  destruct (Req_EM_T z a) as [<-|_]; simpl; [intuition congruence|].
  destruct (rlt z a); simpl; [intuition congruence|]. rewrite IH. intuition congruence.
Qed.

Lemma insert_level_sorted (z : R) (l : list R) :
  StronglySorted Rlt l -> StronglySorted Rlt (insert_level z l).
Proof.
  induction 1 as [|a t Ht IH Ha]; simpl.
  - repeat constructor.
  - destruct (Req_EM_T z a) as [_|Hne]; [constructor; assumption|].
    destruct (rlt z a) eqn:E; rlt_facts.
    + constructor; [constructor; assumption|].
      constructor; [assumption|].
      rewrite List.Forall_forall in Ha |- *. intros y Hy. specialize (Ha y Hy). lra.
    + constructor; [exact IH|].
      rewrite List.Forall_forall in Ha |- *. intros y Hy.
      apply insert_level_in in Hy as [->|Hy]; [lra|auto].
Qed.

End SortedSet.

(** [sorted(set(levels))]: the cross-section heights are visited in
    strictly ascending order, each height of the list exactly once. *)
Theorem sorted_set_spec (l : list R) :
  StronglySorted Rlt (sorted_set l) /\ forall x, In x (sorted_set l) <-> In x l.
Proof.
  induction l as [|z t [IHs IHi]]; simpl.
  - split; [constructor|tauto].
  - split; [apply insert_level_sorted; exact IHs|].
    intros x. rewrite insert_level_in, IHi. split; intros [H|H]; auto.
Qed.

(** When the script suggests a [--reduce] ratio, the mesh has more than
    50000 triangles and the ratio lies in [[0.1, 0.4)]. *)
Theorem recommend_reduce_range (n : nat) (fv cp r : R) :
  recommend n fv cp = Polyhedron (Some r) ->
  (50000 < n)%nat /\ 1/10 <= r < 2/5.
Proof.
  unfold recommend. intros H.
  destruct ((n <? 500)%nat && rlt 80 fv); [discriminate|].
  destruct ((1000 <? n)%nat || rlt 30 cp); [|discriminate].
  destruct (50000 <? n)%nat eqn:E; [|discriminate].
  injection H as <-. apply Nat.ltb_lt in E. split; [exact E|].
  assert (Hn : 50000 < INR n).
  { assert (E' : INR 50000 = 50000)
      by (rewrite INR_IZR_INZ; apply f_equal; vm_compute; reflexivity).
    rewrite <- E'. apply lt_INR. exact E. }
  assert (Hq : 20000 / INR n < 2/5).
  { apply (Rmult_lt_reg_r (INR n)); [lra|].
    unfold Rdiv. rewrite Rmult_assoc, Rinv_l by lra. lra. }
  split; [apply Rmax_l|]. apply Rmax_lub_lt; lra.
Qed.

Lemma recommend_reduce_range_witness :
  recommend 100000 0 0 = Polyhedron (Some (Rmax (1/10) (20000 / INR 100000))) /\
  (50000 < 100000)%nat /\ 1/10 <= Rmax (1/10) (20000 / INR 100000) < 2/5.
Proof.
  assert (H : recommend 100000 0 0 = Polyhedron (Some (Rmax (1/10) (20000 / INR 100000)))).
  { unfold recommend.
    assert (E1 : (100000 <? 500)%nat = false) by (vm_compute; reflexivity).
    assert (E2 : (1000 <? 100000)%nat = true) by (vm_compute; reflexivity).
    assert (E3 : (50000 <? 100000)%nat = true) by (vm_compute; reflexivity).
    rewrite E1, E2, E3. reflexivity. }
  split; [exact H|]. exact (recommend_reduce_range _ _ _ _ H).
Defined.

(** ** Pocket grid *)

Section PocketGrid.

Lemma build_grid_fold (cells : list cell) (g : gmap cell nat) (k : cell) :
  grid_get (fold_left (fun g k => <[k := S (grid_get g k)]> g) cells g) k =
  (grid_get g k + length (List.filter (fun c => bool_decide (c = k)) cells))%nat /\
  ((exists n, fold_left (fun g k => <[k := S (grid_get g k)]> g) cells g !! k = Some n) <->
   (exists n, g !! k = Some n) \/ In k cells).
Proof.
  revert g; induction cells as [|a cs IH]; intros g; simpl.
  - split; [lia|]. intuition.
  - destruct (IH (<[a := S (grid_get g a)]> g)) as [IH1 IH2].
    rewrite IH1, IH2. unfold grid_get at 1. rewrite lookup_insert.
    destruct (decide (a = k)) as [<-|Hne].
    + rewrite bool_decide_true by reflexivity. simpl. split; [unfold grid_get; lia|].
      split; [intros _; right; left; reflexivity|intros _; left; eauto].
    + rewrite bool_decide_false by congruence. split; [unfold grid_get; lia|].
      intuition congruence.
Qed.

End PocketGrid.

(** The pocket grid counts, for every cell, the vertices that fall into
    it, and has a key for exactly the cells that receive a vertex; so the
    guard [if not all_gx: return None] never fires once ten vertices are
    in the slab. *)
Theorem build_grid_spec (cells : list cell) (k : cell) :
  grid_get (build_grid cells) k = length (List.filter (fun c => bool_decide (c = k)) cells) /\
  (In k (grid_keys (build_grid cells)) <-> In k cells).
Proof.
  unfold build_grid. destruct (build_grid_fold cells ∅ k) as [H1 H2].
  rewrite H1. split; [reflexivity|].
  rewrite in_grid_keys, H2. rewrite lookup_empty.
  split; [intros [[n Hn]|Hk]; [discriminate|exact Hk] | intros Hk; right; exact Hk].
Qed.

(** ** ASCII cross-section grid *)

Section AsciiGrid.








End AsciiGrid.








(** ** Surfaces and histogram *)

Section Histograms.

Lemma bump_total (k : R) (h : list (R * nat)) : total (bump k h) = S (total h).
Proof.
  induction h as [|[k' c] t IH]; simpl; [reflexivity|].
  destruct (Req_EM_T k k'); simpl; [reflexivity|]. rewrite IH. lia.
Qed.

Lemma bump_keys (k : R) (h : list (R * nat)) (x : R) :
  In x (map fst (bump k h)) <-> x = k \/ In x (map fst h).
Proof.
  induction h as [|[k' c] t IH]; simpl; [intuition congruence|].
  destruct (Req_EM_T k k') as [<-|]; simpl; [intuition congruence|].
  rewrite IH. intuition congruence.
Qed.

Lemma bump_nodup (k : R) (h : list (R * nat)) :
  List.NoDup (map fst h) -> List.NoDup (map fst (bump k h)).
Proof.
  induction h as [|[k' c] t IH]; simpl; intros Hn.
  - constructor; [intros []|constructor].
  - inversion Hn as [|? ? Hk Ht]; subst.
    destruct (Req_EM_T k k') as [<-|Hne]; simpl; [constructor; assumption|].
    constructor; [|exact (IH Ht)].
    rewrite bump_keys. intuition congruence.
Qed.

Lemma z_hist_fold (round1 : R -> R) (vs : list point) (h : list (R * nat)) :
  let h' := fold_left (fun h v => bump (round1 (pz v)) h) vs h in
  total h' = (total h + length vs)%nat /\
  (List.NoDup (map fst h) -> List.NoDup (map fst h')) /\
  (forall x, In x (map fst h') <-> In x (map fst h) \/ exists v, In v vs /\ x = round1 (pz v)).
Proof.
  revert h; induction vs as [|v vs IH]; intros h; simpl.
  - split; [lia|]. split; [auto|]. intros x. split; [auto|intros [H|(? & [] & _)]; exact H].
  - destruct (IH (bump (round1 (pz v)) h)) as (I1 & I2 & I3).
    split; [rewrite I1, bump_total; lia|].
    split; [intros Hn; apply I2, bump_nodup, Hn|].
    intros x. rewrite I3, bump_keys. split.
    + intros [[->|H]|(u & Hu & ->)]; [right; eauto|left; exact H|right; eauto].
    + intros [H|(u & [<-|Hu] & ->)]; [left; right; exact H|left; left; reflexivity|right; eauto].
Qed.

Lemma surfaces_fold (round1 : R -> R) (ts : list tri) (top bot : list (R * nat))
    (c : normal_counts) :
  let r := fold_left (fun acc t =>
    let '(top, bot) := acc in
    let avg_z := round1 ((pz (v1 t) + pz (v2 t) + pz (v3 t)) / 3) in
    if rlt (9/10) (pz (normal t)) then (bump avg_z top, bot)
    else if rlt (pz (normal t)) (-(9/10)) then (top, bump avg_z bot)
    else (top, bot)) ts (top, bot) in
  let c' := fold_left count_step ts c in
  (total r.1 + n_top c = total top + n_top c')%nat /\
  (total r.2 + n_bottom c = total bot + n_bottom c')%nat.
Proof.
  revert top bot c; induction ts as [|t ts IH]; intros top bot c; [simpl; lia|].
  cbn [fold_left].
  set (az := round1 ((pz (v1 t) + pz (v2 t) + pz (v3 t)) / 3)).
  assert (Ec : count_step c t = match classify_nz (pz (normal t)) with
    | Top => mkCounts (S (n_top c)) (n_bottom c) (n_vertical c) (n_angled c)
    | Bottom => mkCounts (n_top c) (S (n_bottom c)) (n_vertical c) (n_angled c)
    | Vertical => mkCounts (n_top c) (n_bottom c) (S (n_vertical c)) (n_angled c)
    | Angled => mkCounts (n_top c) (n_bottom c) (n_vertical c) (S (n_angled c))
    end) by reflexivity.
  rewrite Ec. unfold classify_nz.
  destruct (rlt (9/10) (pz (normal t))).
  - destruct (IH (bump az top) bot
                 (mkCounts (S (n_top c)) (n_bottom c) (n_vertical c) (n_angled c))) as [A B].
    simpl in A, B. rewrite bump_total in A. split; lia.
  - destruct (rlt (pz (normal t)) (-(9/10))).
    + destruct (IH top (bump az bot)
                   (mkCounts (n_top c) (S (n_bottom c)) (n_vertical c) (n_angled c))) as [A B].
      simpl in A, B. rewrite bump_total in B. split; lia.
    + destruct (rlt (Rabs (pz (normal t))) (1/10));
      [destruct (IH top bot (mkCounts (n_top c) (n_bottom c) (S (n_vertical c)) (n_angled c))) as [A B]
      |destruct (IH top bot (mkCounts (n_top c) (n_bottom c) (n_vertical c) (S (n_angled c)))) as [A B]];
      simpl in A, B; split; lia.
Qed.

End Histograms.

(** The floor and ceiling tallies of [detect_surfaces] add up to the
    top-facing and bottom-facing counts of the face-normal section,
    whatever the rounding of the heights. *)
Theorem detect_surfaces_totals (round1 : R -> R) (ts : list tri) (min_y : R) :
  total (detect_surfaces round1 ts min_y).1 = n_top (face_normals ts) /\
  total (detect_surfaces round1 ts min_y).2 = n_bottom (face_normals ts).
Proof.
  unfold detect_surfaces, face_normals.
  destruct (surfaces_fold round1 ts [] [] (mkCounts 0 0 0 0)) as [A B].
  simpl in A, B. split; lia.
Qed.

(** The Z-level histogram has one entry per distinct rounded height of a
    vertex and its counts add up to the number of vertices. *)
Theorem z_hist_spec (round1 : R -> R) (all_verts : list point) :
  total (z_hist round1 all_verts) = length all_verts /\
  List.NoDup (map fst (z_hist round1 all_verts)) /\
  (forall x, In x (map fst (z_hist round1 all_verts)) <->
             exists v, In v all_verts /\ x = round1 (pz v)).
Proof.
  unfold z_hist. destruct (z_hist_fold round1 all_verts []) as (A & B & C).
  split; [exact A|]. split; [apply B; constructor|].
  intros x. rewrite C. simpl. intuition.
Qed.

(** ** Line splitting *)

Section Readlines.

Lemma nl_not_cr : nl <> cr.
Proof. discriminate. Qed.

Lemma readlines_aux_spec (l cur : list ascii) :
  ~ In nl cur -> ~ In cr cur ->
  concat (readlines_aux l cur) = rev cur ++ translate_newlines l /\
  Forall text_line (readlines_aux l cur).
Proof.
  revert cur; induction l as [l IH] using (well_founded_induction
    (well_founded_ltof _ (@length ascii))); intros cur Hn Hr.
  destruct l as [|c t]; simpl.
  - destruct cur as [|x cur']; simpl.
    + split; constructor.
    + split; [rewrite ?app_nil_r; reflexivity|].
      constructor; [|constructor]. split; [destruct (rev cur'); discriminate|].
      exists (rev (x :: cur')). split; [right; reflexivity|].
      rewrite <- !in_rev. simpl in *. tauto.
  - assert (Hline : text_line (rev (nl :: cur))).
    { split; [simpl; destruct (rev cur); discriminate|].
      exists (rev cur). split; [left; reflexivity|]. rewrite <- !in_rev. tauto. }
    assert (Hsnoc : forall m, rev (nl :: cur) ++ m = rev cur ++ nl :: m)
      by (intros m; simpl; rewrite <- app_assoc; reflexivity).
    destruct (Ascii.eqb c nl) eqn:En.
    + apply Ascii.eqb_eq in En. subst c.
      rewrite (proj2 (Ascii.eqb_neq nl cr) nl_not_cr).
      destruct (IH t (ltac:(unfold ltof; simpl; lia)) [] (fun x => x) (fun x => x)) as [A B].
      simpl. rewrite A, Hsnoc. split; [reflexivity|constructor; assumption].
    + destruct (Ascii.eqb c cr) eqn:Ec.
      * apply Ascii.eqb_eq in Ec. subst c.
        destruct t as [|d t'].
        -- simpl. rewrite app_nil_r. split; [reflexivity|constructor; [exact Hline|constructor]].
        -- destruct (Ascii.eqb d nl) eqn:Ed.
           ++ destruct (IH t' (ltac:(unfold ltof; simpl; lia)) [] (fun x => x) (fun x => x)) as [A B].
              simpl. rewrite A, Hsnoc. split; [reflexivity|constructor; assumption].
           ++ destruct (IH (d :: t') (ltac:(unfold ltof; simpl; lia)) [] (fun x => x) (fun x => x)) as [A B].
              cbn [concat]. rewrite A, Hsnoc.
              split; [reflexivity|constructor; assumption].
      * apply Ascii.eqb_neq in En. apply Ascii.eqb_neq in Ec.
        destruct (IH t (ltac:(unfold ltof; simpl; lia)) (c :: cur)) as [A B];
          [simpl; intuition congruence|simpl; intuition congruence|].
        rewrite A. simpl. rewrite <- app_assoc. split; [reflexivity|exact B].
Qed.

End Readlines.

(** [readlines] in universal-newline mode splits the text into lines
    that put back together give the text with every \r\n and lone \r
    turned into \n; each line is non-empty and holds no \r and a \n at
    most at its end. *)
Theorem readlines_round_trip (text : list ascii) :
  concat (map list_ascii_of_string (readlines text)) = translate_newlines text /\
  Forall text_line (map list_ascii_of_string (readlines text)).
Proof.
  unfold readlines. rewrite map_map.
  rewrite (map_ext _ (fun x => x)) by (intros; apply list_ascii_of_string_of_list_ascii).
  rewrite map_id. apply (readlines_aux_spec text []); intros [].
Qed.

Section SliceLines.

Lemma insert_level_length (z : R) (l : list R) :
  (1 <= length (insert_level z l) <= S (length l))%nat.
Proof.
  induction l as [|a t IH]; simpl; [lia|].
  destruct (Req_EM_T z a); simpl; [lia|]. destruct (rlt z a); simpl; lia.
Qed.

Lemma sorted_set_length (z : R) (l : list R) :
  (1 <= length (sorted_set (z :: l)) <= S (length l))%nat.
Proof.
  revert z; induction l as [|a t IH]; intros z; simpl; [lia|].
  simpl in IH. specialize (IH a). pose proof (insert_level_length z (insert_level a (sorted_set t))).
  lia.
Qed.

Lemma no_slice_cross_section (verts_2d : list (R * R)) (w h g : R) (label : option R) :
  List.filter is_slice (ascii_cross_section verts_2d w h g label) = [].
Proof.
  destruct verts_2d as [|q qs]; [reflexivity|].
  unfold ascii_cross_section. cbv beta iota zeta.
  rewrite List.filter_app. destruct label; simpl.
  - induction (rev _) as [|r0 rs IH]; simpl; [reflexivity|].
    destruct (existsb _ _); simpl; exact IH.
  - induction (rev _) as [|r0 rs IH]; simpl; [reflexivity|].
    destruct (existsb _ _); simpl; exact IH.
Qed.

Lemma filter_flat_map_nil {A : Type} (f : A -> list line) (l : list A) :
  (forall a, List.filter is_slice (f a) = []) -> List.filter is_slice (flat_map f l) = [].
Proof.
  intros H. induction l as [|a t IH]; simpl; [reflexivity|]. rewrite List.filter_app, H, IH. reflexivity.
Qed.

Lemma filter_pockets (ps : list line) :
  Forall (fun l => is_slice l = false) ps ->
  List.filter is_slice (match ps with [] => [LNoPockets] | _ :: _ => ps end) = [].
Proof.
  intros H. assert (Hf : List.filter is_slice ps = []).
  { induction H as [|l ls Hl _ IH]; cbn [List.filter]; [reflexivity|]. rewrite Hl. exact IH. }
  destruct ps as [|p ps]; [reflexivity|exact Hf].
Qed.

End SliceLines.

(** The report has one cross-section line per distinct level, so between
    one and seven of them; a mesh with no height (all vertices at the
    same [z]) gets exactly one. *)
Theorem report_slice_count (fmt : stl_format) (ts : list tri) :
  let zs := map pz (flat_map (fun t => [v1 t; v2 t; v3 t]) ts) in
  let n := length (List.filter is_slice (report fmt ts)) in
  (1 <= n <= 7)%nat /\ (max_list zs = min_list zs -> n = 1%nat).
Proof.
  intros zs n. unfold n, report. cbv zeta. fold zs.
  rewrite !List.filter_app.
  rewrite (filter_flat_map_nil (ascii_block _ _ _ _)).
  2:{ intros a. unfold ascii_block. destruct (_ <? 10)%nat; [reflexivity|].
      apply no_slice_cross_section. }
  rewrite filter_pockets.
  2:{ apply List.Forall_forall. intros l Hl. apply in_flat_map in Hl as [zt [_ Hl]].
      destruct (detect_pockets _ _ _ _ _ _) in Hl; [destruct Hl as [<-|[]]; reflexivity|destruct Hl]. }
  cbn [List.filter is_slice app].
  rewrite ?app_nil_r.
  assert (Hm : forall l : list R,
    List.filter is_slice (map (fun z => LSlice z (analyze_slice
      (flat_map (fun t => [v1 t; v2 t; v3 t]) ts) z (1/4))) l) =
    map (fun z => LSlice z (analyze_slice
      (flat_map (fun t => [v1 t; v2 t; v3 t]) ts) z (1/4))) l).
  { induction l as [|a t IH]; simpl; [reflexivity|]. rewrite IH. reflexivity. }
  rewrite Hm, length_map. split.
  - apply sorted_set_length.
  - intros Hflat. rewrite Hflat, Rminus_diag, !Rmult_0_l, !Rplus_0_r.
    assert (Hi : forall m : R, insert_level m [m] = [m]).
    { intros m. simpl. destruct (Req_EM_T m m) as [_|C]; [reflexivity|congruence]. }
    unfold sorted_set. cbn [fold_right]. rewrite !Hi. reflexivity.
Qed.

Lemma report_slice_count_witness :
  let ts := [mkTri (mkPoint 0 0 1) (mkPoint 0 0 0) (mkPoint 1 0 0) (mkPoint 0 1 0)] in
  let zs := map pz (flat_map (fun t => [v1 t; v2 t; v3 t]) ts) in
  max_list zs = min_list zs /\ length (List.filter is_slice (report Binary ts)) = 1%nat.
Proof.
  intros ts zs.
  assert (H : max_list zs = min_list zs).
  { unfold zs, ts, max_list, min_list. simpl.
    unfold Rmax, Rmin. repeat destruct (Rle_dec _ _); reflexivity. }
  split; [exact H|]. exact (proj2 (report_slice_count Binary ts) H).
Defined.

(** ** Field splitting *)

Section Split.

Lemma split_aux_spec (l cur : list ascii) :
  Forall (fun c => char_is_space c = false) cur ->
  concat (split_aux l cur) = rev cur ++ List.filter (fun c => negb (char_is_space c)) l /\
  Forall (fun w => w <> [] /\ Forall (fun c => char_is_space c = false) w) (split_aux l cur).
Proof.
  revert cur; induction l as [|c t IH]; intros cur Hc; simpl.
  - destruct cur as [|x cur']; simpl; [split; constructor|].
    rewrite app_nil_r. split; [reflexivity|].
    constructor; [|constructor]. split; [destruct (rev cur'); discriminate|].
    change (rev cur' ++ [x]) with (rev (x :: cur')). apply List.Forall_rev. exact Hc.
  - destruct (char_is_space c) eqn:E; simpl.
    + destruct (IH [] (List.Forall_nil _)) as [A B].
      destruct cur as [|x cur']; [exact (conj A B)|].
      simpl. rewrite A. split; [simpl; rewrite ?app_nil_r, <- ?app_assoc; reflexivity|].
      constructor; [|exact B]. split; [destruct (rev cur'); discriminate|].
      change (rev cur' ++ [x]) with (rev (x :: cur')). apply List.Forall_rev. exact Hc.
    + destruct (IH (c :: cur) (@List.Forall_cons _ _ c cur E Hc)) as [A B].
      rewrite A. simpl. rewrite <- app_assoc. split; [reflexivity|exact B].
Qed.

End Split.

(** [str.split()] cuts a line into non-empty words free of whitespace
    that, put back together, are the line's non-whitespace characters
    in order. *)
Theorem split_words (s : string) :
  concat (map list_ascii_of_string (split s)) =
    List.filter (fun c => negb (char_is_space c)) (list_ascii_of_string s) /\
  Forall (fun w => w <> EmptyString /\ Forall (fun c => char_is_space c = false) (list_ascii_of_string w))
    (split s).
Proof.
  unfold split. rewrite map_map.
  rewrite (map_ext _ (fun x => x)) by (intros; apply list_ascii_of_string_of_list_ascii).
  rewrite map_id.
  destruct (split_aux_spec (list_ascii_of_string s) [] (List.Forall_nil _)) as [A B].
  split; [exact A|].
  apply List.Forall_map. eapply Forall_impl; [exact B|].
  intros w [Hw Hs]. rewrite list_ascii_of_string_of_list_ascii. split; [|exact Hs].
  intros E. apply Hw. rewrite <- (list_ascii_of_string_of_list_ascii w), E. reflexivity.
Qed.

(** ** Writing and loading an ASCII STL *)

Section RoundTrip.

Lemma printable_not_space (c : ascii) : printable c = true -> char_is_space c = false.
Proof.
  unfold printable, char_is_space. intros H.
  apply andb_true_iff in H as [H1 H2]. apply Nat.leb_le in H1, H2.
  apply Bool.not_true_iff_false. intros H'.
  apply orb_true_iff in H' as [H'|H']; apply andb_true_iff in H' as [A B];
    apply Nat.leb_le in A, B; lia.
Qed.

Lemma printable_not_nl_cr (c : ascii) : printable c = true -> c <> nl /\ c <> cr.
Proof.
  unfold printable. intros H.
  apply andb_true_iff in H as [H1 _]. apply Nat.leb_le in H1.
  split; intros ->; vm_compute in H1; lia.
Qed.

Lemma split_aux_word (w rest cur : list ascii) :
  Forall (fun c => printable c = true) w ->
  split_aux (w ++ rest) cur = split_aux rest (rev w ++ cur).
Proof.
  intros Hw. revert cur; induction Hw as [|c w Hc _ IH]; intros cur; [reflexivity|].
  simpl. rewrite (printable_not_space c Hc), IH, <- app_assoc. reflexivity.
Qed.

Lemma split_aux_space (c : ascii) (l cur : list ascii) :
  char_is_space c = true ->
  split_aux (c :: l) cur = match cur with [] => split_aux l [] | _ => rev cur :: split_aux l [] end.
Proof. intros H. simpl. rewrite H. reflexivity. Qed.

Lemma split_unwords (ws : list (list ascii)) :
  Forall word_ok ws -> split_aux (unwords ws) [] = ws.
Proof.
  induction 1 as [|w t [Hne Hw] Ht IH]; [reflexivity|].
  destruct t as [|w2 t].
  - simpl. rewrite <- (app_nil_r w) at 1. rewrite split_aux_word by exact Hw.
    rewrite app_nil_r. simpl. destruct (rev w) eqn:E.
    + apply (f_equal (@rev ascii)) in E. rewrite rev_involutive in E. simpl in E. congruence.
    + rewrite <- E, rev_involutive. reflexivity.
  - change (unwords (w :: w2 :: t)) with (w ++ " "%char :: unwords (w2 :: t)).
    rewrite split_aux_word by exact Hw. rewrite app_nil_r.
    rewrite (split_aux_space " "%char) by reflexivity.
    destruct (rev w) eqn:E.
    + apply (f_equal (@rev ascii)) in E. rewrite rev_involutive in E. simpl in E. congruence.
    + rewrite <- E, rev_involutive, IH. reflexivity.
Qed.

Lemma unwords_ends (ws : list (list ascii)) :
  Forall word_ok ws -> ws <> [] ->
  (exists c l, unwords ws = c :: l /\ printable c = true) /\
  (exists c l, rev (unwords ws) = c :: l /\ printable c = true).
Proof.
  induction 1 as [|w t [Hne Hw] Ht IH]; [congruence|]. intros _.
  assert (Hh : exists c l, w = c :: l /\ printable c = true).
  { destruct w as [|c l]; [congruence|]. inversion Hw; subst. eauto. }
  assert (Hr : exists c l, rev w = c :: l /\ printable c = true).
  { destruct (rev w) as [|c l] eqn:E.
    - apply (f_equal (@rev ascii)) in E. rewrite rev_involutive in E. simpl in E. congruence.
    - exists c, l. split; [reflexivity|].
      rewrite List.Forall_forall in Hw. apply Hw. apply in_rev. rewrite E. left. reflexivity. }
  destruct t as [|w2 t]; [exact (conj Hh Hr)|].
  change (unwords (w :: w2 :: t)) with (w ++ " "%char :: unwords (w2 :: t)).
  split.
  - destruct Hh as (c & l & -> & Hc). exists c. eexists. split; [reflexivity|exact Hc].
  - destruct (IH ltac:(discriminate)) as [_ (c & l & E & Hc)].
    rewrite rev_app_distr.
    change (rev (" "%char :: unwords (w2 :: t))) with (rev (unwords (w2 :: t)) ++ [" "%char]).
    rewrite E. exists c. eexists. split; [reflexivity|exact Hc].
Qed.

Lemma strip_unwords_nl (ws : list (list ascii)) :
  Forall word_ok ws -> ws <> [] ->
  strip (string_of_list_ascii (unwords ws ++ [nl])) = string_of_list_ascii (unwords ws).
Proof.
  intros Hws Hne. destruct (unwords_ends ws Hws Hne) as [(c & l & E1 & H1) (d & m & E2 & H2)].
  assert (D : forall c l, char_is_space c = false -> drop_space (c :: l) = c :: l)
    by (intros c' l' Hc'; simpl; rewrite Hc'; reflexivity).
  unfold strip. rewrite list_ascii_of_string_of_list_ascii.
  assert (A : drop_space (unwords ws ++ [nl]) = unwords ws ++ [nl])
    by (rewrite E1; apply D, printable_not_space, H1).
  assert (B : drop_space (rev (unwords ws ++ [nl])) = rev (unwords ws)).
  { rewrite rev_app_distr, E2. simpl. rewrite (printable_not_space d H2). reflexivity. }
  rewrite A, B, rev_involutive. reflexivity.
Qed.

Lemma unwords_chars (ws : list (list ascii)) :
  Forall word_ok ws -> Forall (fun c => printable c = true \/ c = " "%char) (unwords ws).
Proof.
  induction 1 as [|w t [_ Hw] Ht IH]; [constructor|].
  assert (Hw' : Forall (fun c => printable c = true \/ c = " "%char) w)
    by (eapply Forall_impl; [exact Hw|]; intros; left; assumption).
  destruct t as [|w2 t]; [exact Hw'|].
  change (unwords (w :: w2 :: t)) with (w ++ " "%char :: unwords (w2 :: t)).
  apply List.Forall_app. split; [exact Hw'|]. constructor; [right; reflexivity|exact IH].
Qed.

Lemma unwords_line_chars (ws : list (list ascii)) :
  Forall word_ok ws ->
  Forall (fun c => (32 <= nat_of_ascii c <= 126)%nat) (unwords ws).
Proof.
  intros Hws. eapply Forall_impl; [exact (unwords_chars ws Hws)|].
  intros c [Hc| ->]; [|vm_compute; lia].
  unfold printable in Hc. apply andb_true_iff in Hc as [H1 H2].
  apply Nat.leb_le in H1, H2. lia.
Qed.

Lemma byte_of_ascii_nat (c : ascii) : Byte.to_nat (byte_of_ascii c) = nat_of_ascii c.
Proof. destruct c as [[] [] [] [] [] [] [] []]; reflexivity. Qed.

Lemma decode_text_ascii (text : list ascii) :
  Forall (fun c => (nat_of_ascii c < 128)%nat) text ->
  decode_text (map byte_of_ascii text) = ret text.
Proof.
  intros H. unfold decode_text.
  replace (forallb _ _) with true.
  - rewrite map_map. erewrite map_ext; [rewrite map_id; reflexivity|].
    intros c. apply ascii_of_byte_of_ascii.
  - symmetry. apply forallb_forall. intros b Hb. apply in_map_iff in Hb as (c & <- & Hc).
    rewrite List.Forall_forall in H. apply Nat.ltb_lt. rewrite byte_of_ascii_nat. auto.
Qed.

Lemma readlines_aux_line (l rest cur : list ascii) :
  Forall (fun c => c <> nl /\ c <> cr) l ->
  readlines_aux (l ++ nl :: rest) cur = (rev cur ++ l ++ [nl]) :: readlines_aux rest [].
Proof.
  intros Hl. revert cur; induction Hl as [|c l [Hn Hc] _ IH]; intros cur; [reflexivity|].
  change ((c :: l) ++ nl :: rest) with (c :: (l ++ nl :: rest)).
  cbn [readlines_aux].
  rewrite (proj2 (Ascii.eqb_neq c nl) Hn), (proj2 (Ascii.eqb_neq c cr) Hc), IH.
  cbn [rev]. rewrite <- app_assoc. reflexivity.
Qed.

Lemma readlines_aux_lines (ls : list (list ascii)) :
  Forall (Forall (fun c => c <> nl /\ c <> cr)) ls ->
  readlines_aux (concat (map (fun l => l ++ [nl]) ls)) [] = map (fun l => l ++ [nl]) ls.
Proof.
  induction 1 as [|l ls Hl _ IH]; [reflexivity|].
  cbn [map concat]. rewrite <- app_assoc.
  change ([nl] ++ concat (map (fun l0 => l0 ++ [nl]) ls))
    with (nl :: concat (map (fun l0 => l0 ++ [nl]) ls)).
  rewrite readlines_aux_line by exact Hl. rewrite IH. reflexivity.
Qed.

Lemma concat_lines_chars (P : ascii -> Prop) (ls : list (list ascii)) :
  P nl -> Forall (Forall P) ls -> Forall P (concat (map (fun l => l ++ [nl]) ls)).
Proof.
  intros Hnl. induction 1 as [|l ls Hl _ IH]; [constructor|].
  cbn [map concat]. apply List.Forall_app. split; [|exact IH].
  apply List.Forall_app. split; [exact Hl|]. constructor; [exact Hnl|constructor].
Qed.

Lemma lstrip_In (x : Byte.byte) (l : list Byte.byte) : In x (lstrip l) -> In x l.
Proof.
  induction l as [|b t IH]; [tauto|]. simpl. destruct (byte_is_space b); simpl; tauto.
Qed.

Lemma ascii_loop_skip (line0 : string) rest nrm verts acc :
  String.prefix "facet normal" (strip line0) = false ->
  String.prefix "vertex" (strip line0) = false ->
  String.prefix "endfacet" (strip line0) = false ->
  ascii_loop (line0 :: rest) nrm verts acc = ascii_loop rest nrm verts acc.
Proof. intros H1 H2 H3. cbn [ascii_loop]. rewrite H1, H2, H3. reflexivity. Qed.

Lemma ascii_loop_endfacet_step (line0 : string) rest n a b c acc :
  String.prefix "facet normal" (strip line0) = false ->
  String.prefix "vertex" (strip line0) = false ->
  String.prefix "endfacet" (strip line0) = true ->
  ascii_loop (line0 :: rest) (Some n) [a; b; c] acc
  = ascii_loop rest (Some n) [a; b; c] (mkTri n a b c :: acc).
Proof. intros H1 H2 H3. cbn [ascii_loop]. rewrite H1, H2, H3. reflexivity. Qed.

Lemma spells3_words (ws : list (list ascii)) (p : point) :
  spells3 ws p -> Forall word_ok ws.
Proof.
  destruct ws as [|a [|b [|c [|]]]]; try contradiction.
  intros ((Ha & _) & (Hb & _) & (Hc & _)). repeat (apply List.Forall_cons; [assumption|]). apply List.Forall_nil.
Qed.

Lemma word_ok_concrete (s : string) :
  s <> EmptyString -> forallb printable (list_ascii_of_string s) = true -> word_ok (word s).
Proof.
  intros Hs H. split.
  - destruct s; [congruence|discriminate].
  - apply List.Forall_forall. intros c Hc. exact (proj1 (forallb_forall _ _) H c Hc).
Qed.

Ltac word_ok_tac := apply word_ok_concrete; [discriminate|reflexivity].
Ltac forall_tac :=
  repeat (apply List.Forall_cons; [first [assumption | word_ok_tac] |]); first [apply List.Forall_nil | assumption].



Lemma loop_facet_line (a b c : list ascii) (x y z : R) rest nrm verts acc :
  spells a x -> spells b y -> spells c z ->
  ascii_loop (string_of_list_ascii
                (unwords [word "facet"; word "normal"; a; b; c] ++ [nl]) :: rest) nrm verts acc
  = ascii_loop rest (Some (mkPoint x y z)) [] acc.
Proof.
  intros [Ha Ea] [Hb Eb] [Hc Ec].
  assert (Hws : Forall word_ok [word "facet"; word "normal"; a; b; c])
    by forall_tac.
  cbn [ascii_loop]. rewrite strip_unwords_nl by (exact Hws || discriminate).
  replace (String.prefix "facet normal" _) with true by reflexivity.
  unfold split. rewrite list_ascii_of_string_of_list_ascii, split_unwords by exact Hws.
  unfold float_part. cbn [map nth_error]. rewrite Ea, Eb, Ec. reflexivity.
Qed.

Lemma loop_vertex_line (a b c : list ascii) (x y z : R) rest nrm verts acc :
  spells a x -> spells b y -> spells c z ->
  ascii_loop (string_of_list_ascii (unwords [word "vertex"; a; b; c] ++ [nl]) :: rest)
    nrm verts acc
  = ascii_loop rest nrm (verts ++ [mkPoint x y z]) acc.
Proof.
  intros [Ha Ea] [Hb Eb] [Hc Ec].
  assert (Hws : Forall word_ok [word "vertex"; a; b; c])
    by forall_tac.
  cbn [ascii_loop]. rewrite strip_unwords_nl by (exact Hws || discriminate).
  replace (String.prefix "facet normal" _) with false by reflexivity.
  replace (String.prefix "vertex" _) with true by reflexivity.
  unfold split. rewrite list_ascii_of_string_of_list_ascii, split_unwords by exact Hws.
  unfold float_part. cbn [map nth_error]. rewrite Ea, Eb, Ec. reflexivity.
Qed.

Lemma loop_block (s : spelled_tri) (t : tri) rest nrm verts acc :
  spells_tri s t ->
  ascii_loop (map (fun l => string_of_list_ascii (l ++ [nl])) (facet_block s) ++ rest)
    nrm verts acc
  = ascii_loop rest (Some (normal t)) [v1 t; v2 t; v3 t] (t :: acc).
Proof.
  destruct s as [ns w1 w2 w3], t as [n p1 p2 p3]. unfold spells_tri. cbn [s_normal s_v1 s_v2 s_v3 normal v1 v2 v3].
  intros (Hn & H1 & H2 & H3).
  destruct ns as [|a [|b [|c [|]]]]; try contradiction.
  destruct w1 as [|a1 [|b1 [|c1 [|]]]]; try contradiction.
  destruct w2 as [|a2 [|b2 [|c2 [|]]]]; try contradiction.
  destruct w3 as [|a3 [|b3 [|c3 [|]]]]; try contradiction.
  destruct n as [nx ny nz], p1, p2, p3.
  destruct Hn as (Ea & Eb & Ec), H1 as (Ea1 & Eb1 & Ec1),
    H2 as (Ea2 & Eb2 & Ec2), H3 as (Ea3 & Eb3 & Ec3).
  unfold facet_block. cbn [map app].
  rewrite (loop_facet_line _ _ _ _ _ _ _ _ _ _ Ea Eb Ec).
  rewrite ascii_loop_skip by reflexivity.
  rewrite (loop_vertex_line _ _ _ _ _ _ _ _ _ _ Ea1 Eb1 Ec1).
  rewrite (loop_vertex_line _ _ _ _ _ _ _ _ _ _ Ea2 Eb2 Ec2).
  rewrite (loop_vertex_line _ _ _ _ _ _ _ _ _ _ Ea3 Eb3 Ec3).
  rewrite ascii_loop_skip by reflexivity.
  cbn [app]. rewrite ascii_loop_endfacet_step by reflexivity. reflexivity.
Qed.

Lemma endsolid_prefixes (name : list ascii) :
  word_ok name ->
  let l := strip (string_of_list_ascii (unwords [word "endsolid"; name] ++ [nl])) in
  String.prefix "facet normal" l = false /\ String.prefix "vertex" l = false /\
  String.prefix "endfacet" l = false.
Proof.
  intros Hn. cbv zeta. rewrite strip_unwords_nl by (forall_tac || discriminate).
  repeat split; reflexivity.
Qed.

Lemma loop_blocks (name : list ascii) (ss : list spelled_tri) (ts : list tri) nrm verts acc :
  word_ok name -> Forall2 spells_tri ss ts ->
  ascii_loop (map (fun l => string_of_list_ascii (l ++ [nl]))
                (concat (map facet_block ss) ++ [unwords [word "endsolid"; name]]))
    nrm verts acc
  = ret (rev acc ++ ts).
Proof.
  intros Hn H. revert nrm verts acc. induction H as [|s t ss ts Hst _ IH]; intros nrm verts acc.
  - destruct (endsolid_prefixes name Hn) as (E1 & E2 & E3).
    cbn [concat map app]. rewrite ascii_loop_skip by assumption.
    rewrite app_nil_r. reflexivity.
  - cbn [concat map]. rewrite <- app_assoc, map_app, (loop_block s t) by exact Hst.
    rewrite IH. cbn [rev]. rewrite <- app_assoc. reflexivity.
Qed.

Lemma facet_block_lines (s : spelled_tri) (t : tri) :
  spells_tri s t -> Forall (fun l => exists ws, Forall word_ok ws /\ l = unwords ws) (facet_block s).
Proof.
  destruct s as [ns w1 w2 w3]. unfold spells_tri. cbn [s_normal s_v1 s_v2 s_v3].
  intros (Hn & H1 & H2 & H3).
  apply spells3_words in Hn, H1, H2, H3.
  assert (Hf : word_ok (word "facet")) by word_ok_tac.
  assert (Hm : word_ok (word "normal")) by word_ok_tac.
  assert (Hv : word_ok (word "vertex")) by word_ok_tac.
  apply List.Forall_cons.
  { exists (word "facet" :: word "normal" :: ns). split; [forall_tac|reflexivity]. }
  apply List.Forall_cons.
  { exists [word "outer"; word "loop"]. split; [forall_tac|reflexivity]. }
  apply List.Forall_cons.
  { exists (word "vertex" :: w1). split; [forall_tac|reflexivity]. }
  apply List.Forall_cons.
  { exists (word "vertex" :: w2). split; [forall_tac|reflexivity]. }
  apply List.Forall_cons.
  { exists (word "vertex" :: w3). split; [forall_tac|reflexivity]. }
  apply List.Forall_cons.
  { exists [word "endloop"]. split; [forall_tac|reflexivity]. }
  apply List.Forall_cons; [|apply List.Forall_nil].
  exists [word "endfacet"]. split; [forall_tac|reflexivity].
Qed.

Lemma stl_lines (name : list ascii) (ss : list spelled_tri) (ts : list tri) :
  word_ok name -> Forall2 spells_tri ss ts ->
  Forall (fun l => exists ws, Forall word_ok ws /\ l = unwords ws)
    (unwords [word "solid"; name] :: concat (map facet_block ss) ++
     [unwords [word "endsolid"; name]]).
Proof.
  intros Hn H. constructor.
  - exists [word "solid"; name]. split; [forall_tac|reflexivity].
  - apply List.Forall_app. split.
    + induction H as [|s t ss ts Hst _ IH]; [constructor|].
      cbn [map concat]. apply List.Forall_app. split; [exact (facet_block_lines s t Hst)|exact IH].
    + constructor; [|constructor].
      exists [word "endsolid"; name]. split; [forall_tac|reflexivity].
Qed.

Lemma solid_prefixes (name : list ascii) :
  word_ok name ->
  let l := strip (string_of_list_ascii (unwords [word "solid"; name] ++ [nl])) in
  String.prefix "facet normal" l = false /\ String.prefix "vertex" l = false /\
  String.prefix "endfacet" l = false.
Proof.
  intros Hn. cbv zeta. rewrite strip_unwords_nl by (forall_tac || discriminate).
  repeat split; reflexivity.
Qed.

Lemma stl_text_chars (name : list ascii) (ss : list spelled_tri) (ts : list tri) :
  word_ok name -> Forall2 spells_tri ss ts ->
  Forall (fun c => (10 <= nat_of_ascii c <= 126)%nat) (stl_text name ss) /\
  readlines (stl_text name ss) =
  map (fun l => string_of_list_ascii (l ++ [nl]))
    (unwords [word "solid"; name] :: concat (map facet_block ss) ++
     [unwords [word "endsolid"; name]]).
Proof.
  intros Hn H. pose proof (stl_lines name ss ts Hn H) as HL.
  assert (Hc : Forall (Forall (fun c => (32 <= nat_of_ascii c <= 126)%nat))
    (unwords [word "solid"; name] :: concat (map facet_block ss) ++
     [unwords [word "endsolid"; name]])).
  { eapply Forall_impl; [exact HL|]. intros l (ws & Hws & ->). apply unwords_line_chars, Hws. }
  split.
  - apply concat_lines_chars; [vm_compute; lia|].
    eapply Forall_impl; [exact Hc|]. intros l Hl. eapply Forall_impl; [exact Hl|]. intros c' Hc'; cbv beta in *; lia.
  - unfold readlines, stl_text. rewrite readlines_aux_lines, map_map; [reflexivity|].
    eapply Forall_impl; [exact Hc|]. intros l Hl. eapply Forall_impl; [exact Hl|].
    intros c Hb. split; intros ->; vm_compute in Hb; lia.
Qed.

Lemma is_ascii_stl_text (name : list ascii) (ss : list spelled_tri) (ts : list tri) :
  word_ok name -> Forall2 spells_tri ss ts ->
  is_ascii_stl (map byte_of_ascii (stl_text name ss)) = true.
Proof.
  intros Hn H. destruct (stl_text_chars name ss ts Hn H) as [Ht _].
  set (rest := " "%char :: (name ++ [nl]) ++ concat (map (fun l => l ++ [nl])
                 (concat (map facet_block ss) ++ [unwords [word "endsolid"; name]]))).
  assert (Hpre : stl_text name ss = word "solid" ++ rest).
  { unfold stl_text, rest. cbn [map concat unwords]. rewrite <- !app_assoc. reflexivity. }
  rewrite Hpre in Ht |- *. apply List.Forall_app in Ht as [_ Hrest].
  rewrite map_app. remember (map byte_of_ascii rest) as r eqn:Er.
  assert (Hr : ~ In null_byte r).
  { intros Hin. subst r. apply in_map_iff in Hin as (c & Hc & Hin).
    rewrite List.Forall_forall in Hrest. specialize (Hrest c Hin).
    apply (f_equal Byte.to_nat) in Hc. rewrite byte_of_ascii_nat in Hc.
    change (Byte.to_nat null_byte) with 0%nat in Hc. cbv beta in Hrest. lia. }
  unfold is_ascii_stl. simpl.
  apply negb_true_iff, not_true_iff_false. intros Hx. apply existsb_null_iff in Hx.
  apply Hr. rewrite <- (firstn_skipn 75 r). apply in_or_app. left. exact Hx.
Qed.

Lemma spells_digit (d : ascii) :
  is_digit d = true ->
  spells [d] (IZR (Z.of_nat (nat_of_ascii d) - 48)).
Proof.
  intros Hd. split.
  - split; [discriminate|]. apply List.Forall_cons; [|apply List.Forall_nil].
    unfold is_digit, printable in *. apply andb_true_iff in Hd as [H1 H2].
    apply Nat.leb_le in H1, H2. apply andb_true_iff. split; apply Nat.leb_le; lia.
  - assert (Hs : Ascii.eqb d "-"%char = false /\ Ascii.eqb d "+"%char = false).
    { unfold is_digit in Hd. apply andb_true_iff in Hd as [H1 _]. apply Nat.leb_le in H1.
      split; apply Ascii.eqb_neq; intros ->; vm_compute in H1; lia. }
    unfold py_float. cbn [list_ascii_of_string string_of_list_ascii take_sign].
    rewrite (proj1 Hs), (proj2 Hs). cbn [take_digits]. rewrite Hd.
    cbn [app length Nat.eqb digits_value fold_left]. unfold ret. f_equal.
    simpl. rewrite Rmult_1_r. f_equal. lia.
Qed.

Lemma strip_solid_line (name : list ascii) :
  word_ok name ->
  strip (string_of_list_ascii (unwords [word "solid"; name] ++ [nl]))
  = string_of_list_ascii (unwords [word "solid"; name]).
Proof. intros Hn. apply strip_unwords_nl; [forall_tac|discriminate]. Qed.

End RoundTrip.

(** X22: writing the triangles [ts] as an ASCII STL text — a [solid]
    line, one [facet normal ... / outer loop / vertex x3 / endloop /
    endfacet] block per triangle with coordinates spelled by words [float]
    reads as them, an [endsolid] line, each line ended by a newline —
    and loading the result gives back the ASCII format, the header
    [solid name] and exactly [ts], in order. *)
Theorem ascii_stl_round_trip (name : list ascii) (ss : list spelled_tri) (ts : list tri) :
  word_ok name -> Forall2 spells_tri ss ts ->
  load (map byte_of_ascii (stl_text name ss))
  = (ASCII, ret (map byte_of_ascii (unwords [word "solid"; name]), ts)).
Proof.
  intros Hn H. unfold load. rewrite (is_ascii_stl_text name ss ts Hn H). f_equal.
  destruct (stl_text_chars name ss ts Hn H) as [Ht Hl].
  unfold read_ascii_stl. rewrite decode_text_ascii by (eapply Forall_impl; [exact Ht|]; intros c' Hc'; cbv beta in *; lia).
  cbn [bind ret]. fold (readlines (stl_text name ss)). rewrite Hl. cbn [map].
  destruct (solid_prefixes name Hn) as (E1 & E2 & E3).
  rewrite ascii_loop_skip by assumption.
  rewrite (loop_blocks name ss ts) by assumption. cbn [rev app].
  rewrite (strip_solid_line name Hn).
  unfold list_byte_of_string. rewrite list_ascii_of_string_of_list_ascii. reflexivity.
Qed.

Lemma ascii_stl_round_trip_witness :
  let s := mkSpelled [word "0"; word "0"; word "1"] [word "0"; word "0"; word "0"]
             [word "1"; word "0"; word "0"] [word "0"; word "1"; word "0"] in
  let t := mkTri (mkPoint 0 0 1) (mkPoint 0 0 0) (mkPoint 1 0 0) (mkPoint 0 1 0) in
  word_ok (word "x") /\ Forall2 spells_tri [s] [t] /\
  load (map byte_of_ascii (stl_text (word "x") [s]))
  = (ASCII, ret (map byte_of_ascii (unwords [word "solid"; word "x"]), [t])).
Proof.
  cbv zeta.
  assert (Hx : word_ok (word "x")) by (split; [discriminate|repeat constructor]).
  assert (H0 : spells (word "0") 0).
  { pose proof (spells_digit "0"%char eq_refl) as P. vm_compute in P. exact P. }
  assert (H1 : spells (word "1") 1).
  { pose proof (spells_digit "1"%char eq_refl) as P. vm_compute in P. exact P. }
  assert (Hs : Forall2 spells_tri
    [mkSpelled [word "0"; word "0"; word "1"] [word "0"; word "0"; word "0"]
       [word "1"; word "0"; word "0"] [word "0"; word "1"; word "0"]]
    [mkTri (mkPoint 0 0 1) (mkPoint 0 0 0) (mkPoint 1 0 0) (mkPoint 0 1 0)]).
  { constructor; [|constructor].
    exact (conj (conj H0 (conj H0 H1)) (conj (conj H0 (conj H0 H0))
             (conj (conj H1 (conj H0 H0)) (conj H0 (conj H1 H0))))). }
  split; [exact Hx|]. split; [exact Hs|].
  apply (ascii_stl_round_trip (word "x") _ _ Hx Hs).
Defined.
